(** * Smart City Complaint Portal: the token verification workflow

    A shallow embedding of [app.py] (the Flask application) and the
    properties of its complaint store, its two verification routes, its
    status route and its notifier.

    Conventions of the embedding.
    - A Python [str] is a [string] holding its UTF-8 bytes: two strings are
      equal exactly when their encodings are, a string is empty exactly when
      its encoding is, and it is ASCII-only exactly when every byte is below
      128.
    - [request.form.get(k)] and [os.environ.get(k)] return [None] or a
      string: [option string].
    - [time.time()] is an input [now] of the handler that reads the clock;
      timestamps are whole seconds in [Z].
    - The global dict [COMPLAINTS] is threaded through the handlers as a
      [gmap string complaint]; a handler that raises keeps the mutations it
      made before raising.
    - A Python exception is a value of [exn]; a call that may raise returns
      a [result]. *)

From Stdlib Require Import ZArith NArith String Ascii List Bool Lia.
From stdpp Require Import base option list gmap strings.

Local Open Scope Z_scope.
Local Open Scope string_scope.

(** ** Python values *)

Inductive exn : Type :=
  | TypeError
  | ValueError
  | UnboundLocalError
  | OSError.

Inductive result (A : Type) : Type :=
  | Ok (a : A)
  | Raise (e : exn).
Arguments Ok {A} a.
Arguments Raise {A} e.

(** Truth value of an optional string: [None] and [""] are falsy. *)
Definition truthy (v : option string) : bool :=
  match v with
  | Some s => negb (String.eqb s "")
  | None => false
  end.
Arguments truthy : simpl never.

(** [a or b] on optional strings. *)
Definition py_or (a b : option string) : option string :=
  if truthy a then a else b.

(** [f"{v}"] for a value that is a string or [None]. *)
Definition py_str (v : option string) : string :=
  match v with
  | Some s => s
  | None => "None"
  end.

(** [sep.join(l)]. *)
Fixpoint join (sep : string) (l : list string) : string :=
  match l with
  | [] => ""
  | [x] => x
  | x :: rest => x +:+ sep +:+ join sep rest
  end.

Definition is_ascii_char (c : ascii) : bool := (nat_of_ascii c <? 128)%nat.

Definition is_ascii (s : string) : bool :=
  forallb is_ascii_char (list_ascii_of_string s).

(** [secrets.compare_digest(a, b)] where [a] is a [str]. The library accepts
    two [str] arguments only when both are ASCII-only and raises [TypeError]
    otherwise, as it does when [b] is [None]; on two ASCII strings the result
    is their equality. *)
Definition compare_digest (a : string) (b : option string) : result bool :=
  match b with
  | None => Raise TypeError
  | Some b' =>
      if is_ascii a && is_ascii b' then Ok (String.eqb a b') else Raise TypeError
  end.
Arguments compare_digest : simpl never.

(** ** The complaint store *)

Record complaint : Type := mk_complaint {
  name : option string;
  email : option string;
  issue : option string;
  location : option string;
  token : string;
  created_at : Z;
  verified : bool
}.

(** [record["verified"] = True] *)
Definition set_verified (r : complaint) : complaint :=
  {| name := name r; email := email r; issue := issue r;
     location := location r; token := token r;
     created_at := created_at r; verified := true |}.


(** ** Token generator *)

(** [str.upper()] on one character of a hexadecimal string. *)
Definition upper_char (c : ascii) : ascii :=
  let n := nat_of_ascii c in
  if ((97 <=? n) && (n <=? 122))%nat then ascii_of_nat (n - 32) else c.

Definition upper (s : string) : string :=
  string_of_list_ascii (map upper_char (list_ascii_of_string s)).

(** [s[:n]] *)
Definition prefix (n : nat) (s : string) : string :=
  string_of_list_ascii (take n (list_ascii_of_string s)).

(** [f"REF-{uuid.uuid4().hex[:8].upper()}"], from the 32 hexadecimal digits
    [uuid_hex] that [uuid.uuid4().hex] returned. *)
Definition make_reference_id (uuid_hex : string) : string :=
  "REF-" +:+ upper (prefix 8 uuid_hex).

Definition digit_char (d : N) : ascii := ascii_of_N (48 + d).

(** The decimal digits of [n], most significant first, at least [width] of
    them: what the format specification [0{width}d] prints for [n >= 0].
    [fuel] bounds the number of digits produced. *)
Fixpoint zero_padded (fuel : nat) (width : nat) (n : N) (acc : list ascii)
  : list ascii :=
  match fuel with
  | O => acc
  | S fuel' =>
      if (n =? 0)%N && (width =? 0)%nat then acc
      else zero_padded fuel' (pred width) (n / 10)%N (digit_char (n mod 10)%N :: acc)
  end.

Definition is_digit_char (c : ascii) : bool :=
  let n := nat_of_ascii c in ((48 <=? n) && (n <=? 57))%nat.

(** [f"{n:06d}"] for the value [n] drawn by [secrets.randbelow(10**6)]. *)
Definition format_06d (n : N) : string :=
  string_of_list_ascii (zero_padded (6 + N.to_nat (N.log2 n) + 1) 6 n []).

(** ** Configuration

    The process environment, and the module-level constants computed from it
    when [app.py] is imported. *)

Record environ : Type := mk_environ {
  SMTP_HOST : option string;
  SMTP_PORT : option string;
  SMTP_USERNAME : option string;
  SMTP_PASSWORD : option string;
  SMTP_USE_TLS : option string;
  SENDER_EMAIL : option string
}.

Record settings : Type := mk_settings {
  env : environ;
  (** [int(os.environ.get("TOKEN_TTL_SECONDS", 60 * 60 * 24))] *)
  TOKEN_TTL_SECONDS : Z;
  (** [os.environ.get("DEV_EMAIL_BACKEND", "").lower()] *)
  DEV_EMAIL_BACKEND : string;
  (** the non-blank, stripped entries of [ADMIN_EMAILS] *)
  ADMIN_EMAILS : list string;
  (** [app.debug] *)
  debug : bool
}.

(** What the outside world does with one notification: whether the SMTP
    conversation inside the [try] block completes ([smtp_ok]) and whether
    creating and writing the development file succeeds ([fs_ok]). *)
Record transport : Type := mk_transport {
  smtp_ok : bool;
  fs_ok : bool
}.

(** *** [str.strip()] on ASCII text *)

Definition is_space (c : ascii) : bool :=
  let n := nat_of_ascii c in
  ((9 <=? n) && (n <=? 13) || (28 <=? n) && (n <=? 32))%nat.

Fixpoint lstrip (l : list ascii) : list ascii :=
  match l with
  | c :: rest => if is_space c then lstrip rest else l
  | [] => []
  end.

Definition strip (l : list ascii) : list ascii := rev (lstrip (rev (lstrip l))).

(** *** [int(s)] on ASCII text *)

(** The whitespace [int] skips around the number in an ASCII-only string:
    tab, line feed, vertical tab, form feed, carriage return and space. The
    separators 0x1c to 0x1f, which [str.strip()] removes, are not among
    them. *)
Definition is_int_space (c : ascii) : bool :=
  let n := nat_of_ascii c in
  ((9 <=? n) && (n <=? 13) || (n =? 32))%nat.

Fixpoint int_lstrip (l : list ascii) : list ascii :=
  match l with
  | c :: rest => if is_int_space c then int_lstrip rest else l
  | [] => []
  end.

Definition int_strip (l : list ascii) : list ascii :=
  rev (int_lstrip (rev (int_lstrip l))).

Definition digit_value (c : ascii) : option Z :=
  let n := nat_of_ascii c in
  if ((48 <=? n) && (n <=? 57))%nat then Some (Z.of_nat n - 48) else None.

(** Decimal digits, single underscores allowed between two digits. *)
Fixpoint parse_digits (acc : Z) (after_digit : bool) (l : list ascii) : option Z :=
  match l with
  | [] => if after_digit then Some acc else None
  | c :: rest =>
      if Ascii.eqb c "_"%char
      then (if after_digit then parse_digits acc false rest else None)
      else match digit_value c with
           | Some d => parse_digits (10 * acc + d) true rest
           | None => None
           end
  end.

Fixpoint count_digits (l : list ascii) : N :=
  match l with
  | [] => 0%N
  | c :: rest =>
      match digit_value c with
      | Some _ => N.succ (count_digits rest)
      | None => count_digits rest
      end
  end.

(** [sys.get_int_max_str_digits()], at the interpreter's default. *)
Definition max_str_digits : N := 4300%N.

(** The digits after the sign: refused when there are more of them than
    [max_str_digits]. *)
Definition parse_number (l : list ascii) : option Z :=
  if (max_str_digits <? count_digits l)%N then None else parse_digits 0 false l.

(** [int(s)] in base 10 for an ASCII-only [s]: whitespace around the number,
    an optional sign, decimal digits with single underscores between them,
    at most [max_str_digits] digits. [None] stands for the [ValueError]
    Python raises. A string with characters outside ASCII is refused here,
    whereas [int] reads the decimal digits and the spaces of other scripts;
    what is stated below about the port of an arbitrary environment is
    stated for an ASCII-only [SMTP_PORT]. *)
Definition py_int (s : string) : option Z :=
  match int_strip (list_ascii_of_string s) with
  | c :: rest =>
      if Ascii.eqb c "+"%char then parse_number rest
      else if Ascii.eqb c "-"%char then Z.opp <$> parse_number rest
      else parse_number (c :: rest)
  | [] => None
  end.

(** ** Notifier *)

(** The names whose value is falsy, in the order the source lists them. *)
Definition missing_names (vals : list (string * bool)) : list string :=
  map fst (filter (fun p => negb (snd p)) vals).

Definition is_nonempty {A} (l : list A) : bool :=
  match l with [] => false | _ => true end.

(** The [missing] list of the two senders: [SMTP_PORT] is the parsed
    integer, falsy when it is 0. *)
Definition missing_smtp (e : environ) (smtp_port : Z) : list string :=
  missing_names
    [ ("SMTP_HOST", truthy (SMTP_HOST e));
      ("SMTP_PORT", negb (Z.eqb smtp_port 0));
      ("SMTP_USERNAME", truthy (SMTP_USERNAME e));
      ("SMTP_PASSWORD", truthy (SMTP_PASSWORD e));
      ("SENDER_EMAIL", truthy (py_or (SENDER_EMAIL e) (SMTP_USERNAME e))) ].

(** [_get_missing_smtp_config()]: here [SMTP_PORT] is the raw text. *)
Definition _get_missing_smtp_config (e : environ) : list string :=
  missing_names
    [ ("SMTP_HOST", truthy (SMTP_HOST e));
      ("SMTP_PORT", truthy (SMTP_PORT e));
      ("SMTP_USERNAME", truthy (SMTP_USERNAME e));
      ("SMTP_PASSWORD", truthy (SMTP_PASSWORD e));
      ("SENDER_EMAIL", truthy (py_or (SENDER_EMAIL e) (SMTP_USERNAME e))) ].

(** Writing a development file: [os.makedirs], [open] and [fh.write], none
    of them guarded. *)
Definition write_dev_file (tr : transport) : result bool :=
  if fs_ok tr then Ok true else Raise OSError.

(** [send_verification_email(to_email, reference_id, token, cc=None)].
    Rendering the link and the body is taken to succeed; logging, console
    output and the content of the messages are left out. No caller passes
    [cc], so the [To] header is [", ".join([to_email])]; it is built before
    the [try] block and raises [TypeError] when [to_email] is [None]. *)
Definition send_verification_email (cfg : settings) (tr : transport)
    (to_email : option string) (reference_id token : string) : result bool :=
  match py_int (default "0" (SMTP_PORT (env cfg))) with
  | None => Raise ValueError
  | Some smtp_port =>
      if is_nonempty (missing_smtp (env cfg) smtp_port) then
        if String.eqb (DEV_EMAIL_BACKEND cfg) "console" then Ok true
        else if String.eqb (DEV_EMAIL_BACKEND cfg) "file" then write_dev_file tr
        else Ok false
      else
        match to_email with
        | None => Raise TypeError
        | Some _ =>
            if smtp_ok tr then Ok true
            else if String.eqb (DEV_EMAIL_BACKEND cfg) "file" then write_dev_file tr
            else Ok false
        end
  end.

(** [send_admin_notification(reference_id, record)]. Rendering the body and
    formatting the time of submission are taken to succeed. In the branch taken
    when the SMTP configuration is incomplete, the local variables [subject]
    and [body] are read before the statements that assign them: with the
    console backend the read happens in the arguments of the first logging
    call, with the file backend in the string written to the file, after
    the directory and the file were created. *)
Definition send_admin_notification (cfg : settings) (tr : transport)
    (reference_id : string) (record : complaint) : result bool :=
  if negb (is_nonempty (ADMIN_EMAILS cfg)) then Ok false
  else
    match py_int (default "0" (SMTP_PORT (env cfg))) with
    | None => Raise ValueError
    | Some smtp_port =>
        if is_nonempty (missing_smtp (env cfg) smtp_port) then
          if String.eqb (DEV_EMAIL_BACKEND cfg) "console" then Raise UnboundLocalError
          else if String.eqb (DEV_EMAIL_BACKEND cfg) "file" then
            (if fs_ok tr then Raise UnboundLocalError else Raise OSError)
          else Ok false
        else
          if smtp_ok tr then Ok true else Ok false
    end.

(** ** Web surface *)

Inductive method : Type := GET | POST.

(** The endpoints [url_for] is asked for in redirects. *)
Inductive endpoint : Type := ep_index | ep_verify.

Inductive category : Type := success | warning | danger.

Record flash_message : Type := mk_flash {
  message : string;
  flash_category : category
}.

Inductive jvalue : Type :=
  | jstr (s : string)
  | jbool (b : bool)
  (** [datetime.fromtimestamp(t).isoformat()], in the server's time zone *)
  | jiso_local (t : Z).

Inductive response : Type :=
  | redirect_to (ep : endpoint)
  | render_template (template_name : string)
  | json_payload (fields : list (string * jvalue))
  | text_with_status (body : string) (code : Z).

(** One handled request: the store it leaves, the messages it flashed and
    what it returned or raised. *)
Record run : Type := mk_run {
  store_after : gmap string complaint;
  flashes : list flash_message;
  reply : result response
}.

Definition flash_and_redirect (COMPLAINTS : gmap string complaint)
    (msg : string) (c : category) (ep : endpoint) : run :=
  {| store_after := COMPLAINTS;
     flashes := [mk_flash msg c];
     reply := Ok (redirect_to ep) |}.

(** The route ["/"]. [uuid_hex] and [rand] are what [uuid.uuid4().hex] and
    [secrets.randbelow(10**6)] return, [now] is [time.time()]; [tr_user] and
    [tr_admin] say how the transport treats the two notifications. *)
Definition index (cfg : settings) (m : method) (COMPLAINTS : gmap string complaint)
    (form : gmap string string) (uuid_hex : string) (rand : N) (now : Z)
    (tr_user tr_admin : transport) : run :=
  match m with
  | GET =>
      {| store_after := COMPLAINTS; flashes := [];
         reply := Ok (render_template "index.html") |}
  | POST =>
      let reference_id := make_reference_id uuid_hex in
      let token := format_06d rand in
      let record :=
        {| name := form !! "name"; email := form !! "email";
           issue := form !! "issue"; location := form !! "location";
           token := token; created_at := now; verified := false |} in
      let COMPLAINTS' := <[reference_id := record]> COMPLAINTS in
      match send_verification_email cfg tr_user (form !! "email") reference_id token with
      | Raise e => {| store_after := COMPLAINTS'; flashes := []; reply := Raise e |}
      | Ok sent =>
          match send_admin_notification cfg tr_admin reference_id record with
          | Raise e => {| store_after := COMPLAINTS'; flashes := []; reply := Raise e |}
          | Ok admin_notified =>
              let missing := _get_missing_smtp_config (env cfg) in
              if sent then
                flash_and_redirect COMPLAINTS'
                  ("Complaint submitted. A confirmation email (ref " +:+ reference_id
                   +:+ ") has been sent to " +:+ py_str (form !! "email") +:+ ".")
                  success ep_index
              else if is_nonempty missing && debug cfg then
                flash_and_redirect COMPLAINTS'
                  ("Complaint submitted (ref " +:+ reference_id
                   +:+ "). Email NOT sent. Missing SMTP config: "
                   +:+ join ", " missing)
                  warning ep_index
              else
                flash_and_redirect COMPLAINTS'
                  ("Complaint submitted (ref " +:+ reference_id
                   +:+ "). We could not send an email—please contact support or keep this reference id.")
                  warning ep_index
          end
      end
  end.

(** The route ["/verify"]: verification by the reference id and the token
    typed into the form. *)
Definition verify (cfg : settings) (m : method) (COMPLAINTS : gmap string complaint)
    (form : gmap string string) (now : Z) : run :=
  match m with
  | GET =>
      {| store_after := COMPLAINTS; flashes := [];
         reply := Ok (render_template "verify.html") |}
  | POST =>
      let supplied_token := form !! "token" in
      let invalid :=
        flash_and_redirect COMPLAINTS "Invalid reference id." danger ep_verify in
      match form !! "reference_id" with
      | None => invalid
      | Some reference_id =>
          if negb (truthy (Some reference_id)) then invalid
          else
            match COMPLAINTS !! reference_id with
            | None => invalid
            | Some record =>
                if now - created_at record >? TOKEN_TTL_SECONDS cfg then
                  flash_and_redirect COMPLAINTS
                    "Token expired. Please resubmit your complaint." warning ep_verify
                else
                  match compare_digest (token record) supplied_token with
                  | Raise e =>
                      {| store_after := COMPLAINTS; flashes := []; reply := Raise e |}
                  | Ok true =>
                      flash_and_redirect
                        (<[reference_id := set_verified record]> COMPLAINTS)
                        ("Reference " +:+ reference_id
                         +:+ " successfully verified. Thank you!")
                        success ep_index
                  | Ok false =>
                      flash_and_redirect COMPLAINTS
                        "Invalid token for this reference." danger ep_verify
                  end
            end
      end
  end.

(** The route ["/verify/<reference_id>/<token>"]: verification from the
    link in the email. *)
Definition verify_link (cfg : settings) (COMPLAINTS : gmap string complaint)
    (reference_id supplied_token : string) (now : Z) : run :=
  match COMPLAINTS !! reference_id with
  | None => flash_and_redirect COMPLAINTS "Invalid reference id." danger ep_index
  | Some record =>
      if now - created_at record >? TOKEN_TTL_SECONDS cfg then
        flash_and_redirect COMPLAINTS
          "Token expired. Please resubmit your complaint." warning ep_index
      else
        match compare_digest (token record) (Some supplied_token) with
        | Raise e => {| store_after := COMPLAINTS; flashes := []; reply := Raise e |}
        | Ok true =>
            flash_and_redirect
              (<[reference_id := set_verified record]> COMPLAINTS)
              ("Reference " +:+ reference_id
               +:+ " successfully verified via email. Thank you!")
              success ep_index
        | Ok false =>
            flash_and_redirect COMPLAINTS "Invalid token." danger ep_index
        end
  end.

(** The route ["/status/<reference_id>"]. *)
Definition status (COMPLAINTS : gmap string complaint) (reference_id : string)
  : response :=
  match COMPLAINTS !! reference_id with
  | None => text_with_status "Reference not found" 404
  | Some record =>
      json_payload
        [ ("reference_id", jstr reference_id);
          ("verified", jbool (verified record));
          ("created_at", jiso_local (created_at record)) ]
  end.

(** ** Requests and runs of the application *)

Inductive request : Type :=
  | req_index (m : method) (form : gmap string string) (uuid_hex : string)
      (rand : N) (now : Z) (tr_user tr_admin : transport)
  | req_verify (m : method) (form : gmap string string) (now : Z)
  | req_verify_link (reference_id supplied_token : string) (now : Z)
  | req_status (reference_id : string).

(** The store a request leaves behind. *)
Definition step (cfg : settings) (COMPLAINTS : gmap string complaint)
    (q : request) : gmap string complaint :=
  match q with
  | req_index m form uuid_hex rand now tr_user tr_admin =>
      store_after (index cfg m COMPLAINTS form uuid_hex rand now tr_user tr_admin)
  | req_verify m form now => store_after (verify cfg m COMPLAINTS form now)
  | req_verify_link reference_id supplied_token now =>
      store_after (verify_link cfg COMPLAINTS reference_id supplied_token now)
  | req_status _ => COMPLAINTS
  end.

Definition run_requests (cfg : settings) (COMPLAINTS : gmap string complaint)
    (qs : list request) : gmap string complaint :=
  fold_left (step cfg) qs COMPLAINTS.

(** The reference id a request generates, if it is a submission. *)
Definition generated_id (q : request) : option string :=
  match q with
  | req_index POST _ uuid_hex _ _ _ _ => Some (make_reference_id uuid_hex)
  | _ => None
  end.

(** The stores the application can be in: [COMPLAINTS = {}] at start-up,
    then one request after the other. *)
Inductive reachable (cfg : settings) : gmap string complaint -> Prop :=
  | reachable_start : reachable cfg ∅
  | reachable_step COMPLAINTS q :
      reachable cfg COMPLAINTS -> reachable cfg (step cfg COMPLAINTS q).

(** What every reachable store satisfies and the handlers rely on: no record
    is filed under the empty reference id, and every stored token is
    ASCII-only. *)
Definition store_ok (COMPLAINTS : gmap string complaint) : Prop :=
  COMPLAINTS !! "" = None /\
  forall k r, COMPLAINTS !! k = Some r -> is_ascii (token r) = true.

(** ** Outcomes

    The four outcomes of the specification, read off what a run shows the
    user: the category of the flashed message, and for [danger] its text. *)

Inductive Outcome : Type :=
  | verified_now
  | already_invalid_reference
  | expired
  | token_mismatch.

Definition outcome_of_flash (f : flash_message) : Outcome :=
  match flash_category f with
  | success => verified_now
  | warning => expired
  | danger =>
      if String.eqb (message f) "Invalid reference id."
      then already_invalid_reference else token_mismatch
  end.

(** The outcome of a run: the exception if it raised, else the outcome its
    flashed message stands for ([None] when nothing was flashed). *)
Definition outcome (r : run) : result (option Outcome) :=
  match reply r with
  | Raise e => Raise e
  | Ok _ => Ok (outcome_of_flash <$> head (flashes r))
  end.

(** The form a browser posts to ["/verify"]. *)
Definition verify_form (reference_id supplied_token : string) : gmap string string :=
  <["reference_id" := reference_id]> (<["token" := supplied_token]> ∅).

(** The contract of the specification's verification workflow (section 4.3,
    steps 1 to 4), written from its words: the reference the two routes are
    compared with. *)
Definition spec_verify (TTL : Z) (COMPLAINTS : gmap string complaint)
    (reference_id supplied_token : string) (now : Z)
  : Outcome * gmap string complaint :=
  match COMPLAINTS !! reference_id with
  | None => (already_invalid_reference, COMPLAINTS)
  | Some record =>
      if now - created_at record >? TTL then (expired, COMPLAINTS)
      else if String.eqb supplied_token (token record)
      then (verified_now, <[reference_id := set_verified record]> COMPLAINTS)
      else (token_mismatch, COMPLAINTS)
  end.

(** The record a submission files. *)
Definition submitted_record (form : gmap string string) (rand : N) (now : Z)
  : complaint :=
  {| name := form !! "name"; email := form !! "email";
     issue := form !! "issue"; location := form !! "location";
     token := format_06d rand; created_at := now; verified := false |}.

(** Two records that differ at most in [verified]. *)
Definition same_except_verified (r r' : complaint) : Prop :=
  name r = name r' /\ email r = email r' /\ issue r = issue r' /\
  location r = location r' /\ token r = token r' /\ created_at r = created_at r'.

(** What the status route reads of a record. *)
Definition public_part (r : complaint) : bool * Z := (verified r, created_at r).

(** [needle in s] *)
Definition occurs_in (needle s : string) : Prop :=
  exists before after, s = before +:+ needle +:+ after.

(** ** Sample data *)

Definition no_smtp : environ := mk_environ None None None None None None.

(** Nothing configured: the defaults of [app.py]. *)
Definition default_settings : settings := mk_settings no_smtp 86400 "" [] false.

(** A development set-up: no SMTP server, mails printed to the console, one
    administrator to notify. *)
Definition console_settings : settings :=
  mk_settings no_smtp 86400 "console" ["admin@example.com"] false.

Definition working : transport := mk_transport true true.

Definition sample_form : gmap string string :=
  <["name" := "Asha"]> (<["email" := "asha@example.com"]>
    (<["issue" := "Street light out"]> (<["location" := "Ward 4"]> ∅))).

Definition sample_uuid : string := "ab12cd34ef567890ab12cd34ef567890".

(** The store after one submission at time 1000: one unverified record
    under ["REF-AB12CD34"] with the token ["000000"]. *)
Definition sample_store : gmap string complaint :=
  store_after (index default_settings POST ∅ sample_form sample_uuid 0 1000 working working).

(** Submit, verify through the emailed link, and a later submission for
    which the generator draws the same eight hexadecimal digits. *)
Definition submit_first : request :=
  req_index POST sample_form sample_uuid 0 1000 working working.
Definition follow_link : request :=
  req_verify_link "REF-AB12CD34" "000000" 2000.
Definition submit_again : request :=
  req_index POST (<["name" := "Ravi"]> ∅) "ab12cd34000000000000000000000000" 7 3000
    working working.
Definition submit_other : request :=
  req_index POST (<["name" := "Ravi"]> ∅) "0123456789abcdef0123456789abcdef" 7 3000
    working working.

(** The same set-up with the file backend, and one whose [SMTP_PORT] is not
    a number. *)
Definition file_settings : settings :=
  mk_settings no_smtp 86400 "file" ["admin@example.com"] false.
Definition bad_port_settings : settings :=
  mk_settings (mk_environ (Some "smtp.example.com") (Some "smtp") (Some "portal")
                 (Some "secret") None None)
    86400 "" [] false.

(** ** Start-up: the administrators' addresses

    [ADMIN_EMAILS] is computed once, when [app.py] is imported, from the
    environment variable of the same name. *)

(** [s.split(sep)] for a one-character separator, on the characters of [s]:
    the pieces between the separators, [[""]] for the empty string. *)
Fixpoint split_on (sep : ascii) (l : list ascii) : list (list ascii) :=
  match l with
  | [] => [[]]
  | c :: rest =>
      if Ascii.eqb c sep then [] :: split_on sep rest
      else match split_on sep rest with
           | piece :: pieces => (c :: piece) :: pieces
           | [] => [[c]]
           end
  end.

(** [[e.strip() for e in os.environ.get("ADMIN_EMAILS", "").split(",") if
    e.strip()]]. [strip] removes the ASCII whitespace; on a value that is
    ASCII-only this is what [str.strip()] removes. *)
Definition parse_admin_emails (raw : option string) : list string :=
  map string_of_list_ascii
    (filter (fun e => is_nonempty e)
       (map strip (split_on ","%char (list_ascii_of_string (default "" raw))))).

(** The characters of [uuid.uuid4().hex], and of its upper-case form. *)
Definition is_lower_hex (c : ascii) : bool :=
  let n := nat_of_ascii c in
  ((48 <=? n) && (n <=? 57) || (97 <=? n) && (n <=? 102))%nat.

Definition is_upper_hex (c : ascii) : bool :=
  let n := nat_of_ascii c in
  ((48 <=? n) && (n <=? 57) || (65 <=? n) && (n <=? 70))%nat.

(** A string as [uuid.uuid4().hex] returns it, or any string of lower-case
    hexadecimal digits with at least the eight that the reference id uses. *)
Definition is_uuid_hex (u : string) : Prop :=
  forallb is_lower_hex (list_ascii_of_string u) = true /\
  (8 <= String.length u)%nat.

(** A production set-up: SMTP fully configured, one administrator to
    notify, no development backend. *)
Definition smtp_environ : environ :=
  mk_environ (Some "smtp.example.com") (Some " 587 ") (Some "portal")
    (Some "secret") (Some "true") None.
Definition smtp_settings : settings :=
  mk_settings smtp_environ 86400 "" ["admin@example.com"] false.

(** A transport on which the SMTP conversation fails. *)
Definition smtp_down : transport := mk_transport false true.

(** * Properties *)

(** ** Python values and the token generator *)

Example join_demo : py_str None +:+ join ", " ["a"; "b"] = "Nonea, b".
Proof. reflexivity. Qed.

Example make_reference_id_demo :
  make_reference_id "ab12cd34ef567890ab12cd34ef567890" = "REF-AB12CD34".
Proof. reflexivity. Qed.

Example format_06d_demo :
  format_06d 0 = "000000" /\ format_06d 42 = "000042" /\
  format_06d 999999 = "999999" /\ format_06d 1234567 = "1234567".
Proof. repeat split; reflexivity. Qed.

Example py_int_demo :
  py_int "0" = Some 0 /\ py_int " 587 " = Some 587 /\ py_int "1_0" = Some 10 /\
  py_int "" = None /\ py_int "smtp" = None /\ py_int "5_" = None /\
  py_int "- 5" = None /\ py_int "-025" = Some (-25) /\
  py_int (String (ascii_of_nat 28) "587") = None /\
  py_int (String (ascii_of_nat 12) "587") = Some 587.
Proof. repeat split; reflexivity. Qed.

Lemma truthy_Some (s : string) : truthy (Some s) = true <-> s <> "".
Proof.
  unfold truthy. destruct (String.eqb_spec s ""); simpl; split; congruence.
Qed.

Lemma make_reference_id_nonempty (uuid_hex : string) :
  make_reference_id uuid_hex <> "".
Proof. unfold make_reference_id. simpl. discriminate. Qed.

Lemma is_ascii_list (l : list ascii) :
  is_ascii (string_of_list_ascii l) = forallb is_ascii_char l.
Proof. unfold is_ascii. now rewrite list_ascii_of_string_of_list_ascii. Qed.

Lemma digit_char_ascii (n : N) : is_ascii_char (digit_char (n mod 10)) = true.
Proof.
  assert (H : (n mod 10 < 10)%N) by (apply N.mod_lt; discriminate).
  destruct (n mod 10)%N as [|p]; [reflexivity|].
  do 4 (destruct p as [p|p|]; try reflexivity; try (exfalso; lia)).
Qed.

Lemma zero_padded_ascii (fuel width : nat) (n : N) (acc : list ascii) :
  forallb is_ascii_char acc = true ->
  forallb is_ascii_char (zero_padded fuel width n acc) = true.
Proof.
  revert width n acc.
  induction fuel as [|fuel IH]; intros width n acc Hacc; simpl; [exact Hacc|].
  destruct ((n =? 0)%N && (width =? 0)%nat); [exact Hacc|].
  apply IH. simpl. now rewrite digit_char_ascii, Hacc.
Qed.

(** Every token the generator prints is ASCII-only. *)
Lemma format_06d_ascii (n : N) : is_ascii (format_06d n) = true.
Proof.
  unfold format_06d. rewrite is_ascii_list. now apply zero_padded_ascii.
Qed.

Lemma compare_digest_ascii (a b : string) :
  is_ascii a = true -> is_ascii b = true ->
  compare_digest a (Some b) = Ok (String.eqb a b).
Proof. intros Ha Hb. unfold compare_digest. now rewrite Ha, Hb. Qed.

Lemma compare_digest_not_ascii (a b : string) :
  is_ascii b = false -> compare_digest a (Some b) = Raise TypeError.
Proof.
  intros Hb. unfold compare_digest. rewrite Hb, andb_false_r. reflexivity.
Qed.

Lemma verify_form_reference_id (reference_id supplied_token : string) :
  verify_form reference_id supplied_token !! "reference_id" = Some reference_id.
Proof. unfold verify_form. apply lookup_insert_eq. Qed.

Lemma verify_form_token (reference_id supplied_token : string) :
  verify_form reference_id supplied_token !! "token" = Some supplied_token.
Proof.
  unfold verify_form. rewrite lookup_insert_ne by discriminate.
  apply lookup_insert_eq.
Qed.

(** ** The two verification routes *)

(** Splits a goal about [verify_link] or the POST branch of [verify] along
    the tests of the handler. *)
Ltac handler_cases :=
  repeat match goal with
    | |- context [match ?m !! ?k with _ => _ end] =>
        let E := fresh "Elookup" in destruct (m !! k) eqn:E; simpl
    | |- context [if negb (truthy ?v) then _ else _] =>
        let E := fresh "Etruthy" in destruct (truthy v) eqn:E; simpl
    | |- context [if ?a >? ?b then _ else _] =>
        let E := fresh "Ettl" in destruct (a >? b) eqn:E; simpl
    | |- context [match compare_digest ?a ?b with _ => _ end] =>
        let E := fresh "Ecmp" in destruct (compare_digest a b) as [[|]|] eqn:E; simpl
    end.

(** What a run of the link route can do to the store: nothing, or mark the
    record under the given reference id as verified, and the latter only
    with the outcome [verified_now]. *)
Lemma verify_link_effect cfg (s : gmap string complaint) reference_id supplied_token now :
  let r := verify_link cfg s reference_id supplied_token now in
  (store_after r = s /\ outcome r <> Ok (Some verified_now)) \/
  (exists record, s !! reference_id = Some record /\
     outcome r = Ok (Some verified_now) /\
     store_after r = <[reference_id := set_verified record]> s).
Proof.
  unfold verify_link. handler_cases;
    try (left; split; [reflexivity | discriminate]).
  right. eexists. repeat split; reflexivity.
Qed.

(** The same for the form route, whatever the form holds. *)
Lemma verify_effect cfg m (s : gmap string complaint) (form : gmap string string) now :
  let r := verify cfg m s form now in
  (store_after r = s /\ outcome r <> Ok (Some verified_now)) \/
  (exists reference_id record,
     form !! "reference_id" = Some reference_id /\
     s !! reference_id = Some record /\
     outcome r = Ok (Some verified_now) /\
     store_after r = <[reference_id := set_verified record]> s).
Proof.
  unfold verify. destruct m; simpl;
    [left; split; [reflexivity | discriminate]|].
  handler_cases; try (left; split; [reflexivity | discriminate]).
  right. eexists _, _. split; [reflexivity|]. split; [eassumption|].
  split; reflexivity.
Qed.

(** On the form a browser posts, the form route runs the tests of the link
    route, provided the reference id is not empty or no record is filed
    under the empty id. *)
Lemma verify_form_cases cfg (s : gmap string complaint) reference_id supplied_token now :
  reference_id <> "" \/ s !! "" = None ->
  let r := verify cfg POST s (verify_form reference_id supplied_token) now in
  let r' := verify_link cfg s reference_id supplied_token now in
  outcome r = outcome r' /\ store_after r = store_after r'.
Proof.
  intros Hne. unfold verify, verify_link.
  rewrite verify_form_reference_id, verify_form_token.
  destruct (truthy (Some reference_id)) eqn:Etruthy; simpl.
  - handler_cases; split; reflexivity.
  - assert (reference_id = "") as ->.
    { destruct (String.eqb_spec reference_id ""); [assumption|].
      apply truthy_Some in n. congruence. }
    destruct Hne as [Hne | Hne]; [congruence|].
    rewrite Hne. split; reflexivity.
Qed.

(** For an ASCII-only supplied token and a store whose tokens are
    ASCII-only, the link route computes the contract of the specification. *)
Lemma verify_link_spec cfg (s : gmap string complaint) reference_id supplied_token now :
  store_ok s -> is_ascii supplied_token = true ->
  let r := verify_link cfg s reference_id supplied_token now in
  let spec := spec_verify (TOKEN_TTL_SECONDS cfg) s reference_id supplied_token now in
  outcome r = Ok (Some (fst spec)) /\ store_after r = snd spec.
Proof.
  intros [_ Hascii] Htok. unfold verify_link, spec_verify.
  destruct (s !! reference_id) as [record|] eqn:Elookup; simpl;
    [|split; reflexivity].
  destruct (now - created_at record >? TOKEN_TTL_SECONDS cfg); simpl;
    [split; reflexivity|].
  rewrite (compare_digest_ascii _ _ (Hascii _ _ Elookup) Htok).
  rewrite (String.eqb_sym supplied_token).
  destruct (String.eqb (token record) supplied_token); split; reflexivity.
Qed.

(** ** Submission *)

(** A POST to ["/"] files the new record under the generated reference id
    before it notifies anyone, so the store it leaves does not depend on
    what the notifier does: return [True], return [False] or raise. *)
Lemma index_store_after cfg (s : gmap string complaint) form uuid_hex rand now tr_user tr_admin :
  store_after (index cfg POST s form uuid_hex rand now tr_user tr_admin)
  = <[make_reference_id uuid_hex := submitted_record form rand now]> s.
Proof.
  unfold index, submitted_record.
  destruct (send_verification_email _ _ _ _ _) as [sent|]; [|reflexivity].
  destruct (send_admin_notification _ _ _ _) as [admin_notified|]; [|reflexivity].
  destruct sent; [reflexivity|].
  destruct (is_nonempty _ && debug cfg); reflexivity.
Qed.

(** ** The invariant of the store *)

Lemma store_ok_empty : store_ok ∅.
Proof. split; [apply lookup_empty|]. intros k r H. now rewrite lookup_empty in H. Qed.

Lemma store_ok_insert (s : gmap string complaint) k r :
  store_ok s -> k <> "" -> is_ascii (token r) = true -> store_ok (<[k := r]> s).
Proof.
  intros [Hempty Hascii] Hk Hr. split.
  - rewrite lookup_insert_ne by assumption. exact Hempty.
  - intros k' r' H. destruct (decide (k = k')) as [->|Hne].
    + rewrite lookup_insert_eq in H. congruence.
    + rewrite lookup_insert_ne in H by assumption. eauto.
Qed.

Lemma store_ok_set_verified (s : gmap string complaint) k r :
  store_ok s -> s !! k = Some r -> store_ok (<[k := set_verified r]> s).
Proof.
  intros Hok Hk. apply store_ok_insert; [assumption| |].
  - intros ->. destruct Hok as [Hempty _]. congruence.
  - destruct Hok as [_ Hascii]. exact (Hascii _ _ Hk).
Qed.

Lemma step_store_ok cfg (s : gmap string complaint) q :
  store_ok s -> store_ok (step cfg s q).
Proof.
  intros Hok. destruct q as [m form uuid_hex rand now tu ta | m form now
                            | reference_id supplied_token now | reference_id]; simpl.
  - destruct m; [assumption|]. rewrite index_store_after.
    apply store_ok_insert;
      [assumption | apply make_reference_id_nonempty | apply format_06d_ascii].
  - destruct (verify_effect cfg m s form now) as [[-> _] | (k & r & _ & Hk & _ & ->)];
      [assumption | now apply store_ok_set_verified].
  - destruct (verify_link_effect cfg s reference_id supplied_token now)
      as [[-> _] | (r & Hk & _ & ->)];
      [assumption | now apply store_ok_set_verified].
  - assumption.
Qed.

(** Every store the application can reach satisfies the invariant. *)
Lemma reachable_store_ok cfg (s : gmap string complaint) :
  reachable cfg s -> store_ok s.
Proof.
  induction 1 as [|s q _ IH]; [apply store_ok_empty | now apply step_store_ok].
Qed.

Lemma run_requests_reachable cfg (s : gmap string complaint) qs :
  reachable cfg s -> reachable cfg (run_requests cfg s qs).
Proof.
  revert s. induction qs as [|q qs IH]; intros s Hs; simpl; [assumption|].
  apply IH. now constructor.
Qed.

(** ** The verification workflow *)

Example sample_store_record :
  sample_store !! "REF-AB12CD34"
  = Some (submitted_record sample_form 0 1000) /\
  token (submitted_record sample_form 0 1000) = "000000".
Proof. split; reflexivity. Qed.

Lemma sample_store_ok : store_ok sample_store.
Proof.
  apply (reachable_store_ok default_settings).
  exact (reachable_step default_settings ∅ submit_first (reachable_start _)).
Qed.

(** X1: the contract of the verification workflow, on the inputs where the
    code meets it: for a store that satisfies the invariant and a supplied token
    that is ASCII-only, both routes give the outcome and leave the store that
    the four steps of the specification prescribe, tested in that order: no
    record, [already_invalid_reference]; else too old, [expired]; else the
    tokens are equal, [verified] is set and the outcome is [verified_now],
    also when it was set before; else [token_mismatch]. *)
Theorem verify_routes_meet_contract cfg (s : gmap string complaint)
    reference_id supplied_token now :
  store_ok s -> is_ascii supplied_token = true ->
  let spec := spec_verify (TOKEN_TTL_SECONDS cfg) s reference_id supplied_token now in
  let by_link := verify_link cfg s reference_id supplied_token now in
  let by_form := verify cfg POST s (verify_form reference_id supplied_token) now in
  outcome by_link = Ok (Some (fst spec)) /\ store_after by_link = snd spec /\
  outcome by_form = Ok (Some (fst spec)) /\ store_after by_form = snd spec.
Proof.
  intros Hok Htok spec by_link by_form.
  destruct (verify_link_spec cfg s reference_id supplied_token now Hok Htok)
    as [Hout Hstore].
  destruct (verify_form_cases cfg s reference_id supplied_token now
              (or_intror (proj1 Hok))) as [Hout' Hstore'].
  unfold by_form, by_link, spec. rewrite Hout', Hstore'. auto.
Qed.

Lemma verify_routes_meet_contract_witness :
  store_ok sample_store /\ is_ascii "000000" = true /\
  outcome (verify_link default_settings sample_store "REF-AB12CD34" "000000" 2000)
  = Ok (Some verified_now) /\
  outcome (verify default_settings POST sample_store
             (verify_form "REF-AB12CD34" "000000") 2000)
  = Ok (Some verified_now).
Proof.
  split; [exact sample_store_ok|]. split; [reflexivity|].
  pose proof (verify_routes_meet_contract default_settings sample_store
                "REF-AB12CD34" "000000" 2000 sample_store_ok eq_refl) as H.
  cbv zeta in H. destruct H as (H1 & _ & H2 & _). split; [exact H1 | exact H2].
Defined.

(** C1 (the code departs from the claim): the claim gives every call with a
    reference id, a supplied token and a time one of the four outcomes, and
    [token_mismatch] whenever the record exists, is within the TTL and the
    supplied token differs from the stored one. With the supplied token
    ["é"], which differs from the stored token ["000000"], both routes raise
    [TypeError] instead: [secrets.compare_digest] refuses a string that is
    not ASCII-only, and neither handler checks the token before the call nor
    catches the exception. *)
Theorem verify_non_ascii_token_raises :
  token <$> sample_store !! "REF-AB12CD34" = Some "000000" /\
  outcome (verify default_settings POST sample_store
             (verify_form "REF-AB12CD34" "é") 2000) = Raise TypeError /\
  outcome (verify_link default_settings sample_store "REF-AB12CD34" "é" 2000)
  = Raise TypeError /\
  fst (spec_verify 86400 sample_store "REF-AB12CD34" "é" 2000) = token_mismatch.
Proof. repeat split; reflexivity. Qed.

(** C2: for every store the application reaches from the empty one, by any
    sequence of requests, and for every triple of reference id, supplied
    token and time, the form route and the link route produce the same
    outcome, or raise the same exception, and leave the same store. The same
    holds in any store at all when the reference id is not empty, and for
    the empty reference id when no record is filed under it. *)
Theorem verify_routes_agree cfg :
  (forall (qs : list request) reference_id supplied_token now,
     let s := run_requests cfg ∅ qs in
     outcome (verify cfg POST s (verify_form reference_id supplied_token) now)
     = outcome (verify_link cfg s reference_id supplied_token now) /\
     store_after (verify cfg POST s (verify_form reference_id supplied_token) now)
     = store_after (verify_link cfg s reference_id supplied_token now)) /\
  (forall (s : gmap string complaint) reference_id supplied_token now,
     reference_id <> "" \/ s !! "" = None ->
     outcome (verify cfg POST s (verify_form reference_id supplied_token) now)
     = outcome (verify_link cfg s reference_id supplied_token now) /\
     store_after (verify cfg POST s (verify_form reference_id supplied_token) now)
     = store_after (verify_link cfg s reference_id supplied_token now)).
Proof.
  assert (Hany : forall (s : gmap string complaint) reference_id supplied_token now,
            reference_id <> "" \/ s !! "" = None ->
            outcome (verify cfg POST s (verify_form reference_id supplied_token) now)
            = outcome (verify_link cfg s reference_id supplied_token now) /\
            store_after (verify cfg POST s (verify_form reference_id supplied_token) now)
            = store_after (verify_link cfg s reference_id supplied_token now)).
  { intros s reference_id supplied_token now Hne. unfold verify, verify_link.
    rewrite verify_form_reference_id, verify_form_token.
    destruct (truthy (Some reference_id)) eqn:Etruthy; simpl.
    - (* a non-empty reference id: the same tests in the same order *)
      destruct (s !! reference_id) as [record|]; simpl; [|split; reflexivity].
      destruct (now - created_at record >? TOKEN_TTL_SECONDS cfg); simpl;
        [split; reflexivity|].
      destruct (compare_digest (token record) (Some supplied_token)) as [[|]|];
        split; reflexivity.
    - (* the empty reference id: refused by the form route before the lookup *)
      destruct (String.eqb_spec reference_id "") as [->|Hnonempty].
      + destruct Hne as [Hne | Hne]; [congruence|]. rewrite Hne. split; reflexivity.
      + apply truthy_Some in Hnonempty. congruence. }
  split; [|exact Hany].
  intros qs reference_id supplied_token now s. apply Hany. right.
  (* no reachable store files a record under the empty reference id *)
  assert (Hreach : reachable cfg s)
    by (apply run_requests_reachable; constructor).
  exact (proj1 (reachable_store_ok cfg s Hreach)).
Qed.

Lemma verify_routes_agree_witness :
  sample_store = run_requests default_settings ∅ [submit_first] /\
  outcome (verify default_settings POST sample_store
             (verify_form "REF-AB12CD34" "000000") 2000)
  = outcome (verify_link default_settings sample_store "REF-AB12CD34" "000000" 2000) /\
  store_after (verify default_settings POST sample_store
                 (verify_form "REF-AB12CD34" "000000") 2000)
  = store_after (verify_link default_settings sample_store "REF-AB12CD34" "000000" 2000).
Proof.
  split; [reflexivity|].
  exact (proj1 (verify_routes_agree default_settings) [submit_first]
           "REF-AB12CD34" "000000" 2000).
Defined.

(** The two handlers are separate functions, each with its own copy of the
    four tests and with its own wording: on the same triple the form route
    confirms a success with one text and the link route with another, and
    after a failure the form route redirects to the verification form where
    the link route redirects to the start page. Outcome and store are the
    same in both. *)
Lemma verify_routes_are_two_functions :
  flashes (verify default_settings POST sample_store
             (verify_form "REF-AB12CD34" "000000") 2000)
  = [mk_flash "Reference REF-AB12CD34 successfully verified. Thank you!" success] /\
  flashes (verify_link default_settings sample_store "REF-AB12CD34" "000000" 2000)
  = [mk_flash "Reference REF-AB12CD34 successfully verified via email. Thank you!"
       success] /\
  reply (verify default_settings POST sample_store
           (verify_form "REF-00000000" "000000") 2000)
  = Ok (redirect_to ep_verify) /\
  reply (verify_link default_settings sample_store "REF-00000000" "000000" 2000)
  = Ok (redirect_to ep_index) /\
  verify default_settings POST sample_store (verify_form "REF-00000000" "000000") 2000
  <> verify_link default_settings sample_store "REF-00000000" "000000" 2000.
Proof. repeat split; try reflexivity. discriminate. Qed.

(** Why the stores are the reachable ones: the form route refuses an empty
    reference id before it looks at the store ([not reference_id]), the link
    route looks it up. In a store with a record under the empty id, which no
    run of the application produces, the two would part. *)
Lemma verify_routes_on_empty_id :
  let odd : gmap string complaint :=
    <["" := submitted_record sample_form 0 1000]> ∅ in
  outcome (verify default_settings POST odd (verify_form "" "000000") 2000)
  = Ok (Some already_invalid_reference) /\
  outcome (verify_link default_settings odd "" "000000" 2000)
  = Ok (Some verified_now).
Proof. split; reflexivity. Qed.

(** C3 (the code departs from the claim): the verification operation is not
    total. A POST to ["/verify"] that names an existing, unexpired record and
    carries no [token] field passes [None] to [secrets.compare_digest], which
    raises [TypeError]; the handler flashes nothing and returns no redirect.
    The missing reference id is guarded ([not reference_id]), the missing
    token is not. *)
Theorem verify_missing_token_raises :
  let form : gmap string string := <["reference_id" := "REF-AB12CD34"]> ∅ in
  let r := verify default_settings POST sample_store form 2000 in
  form !! "token" = None /\
  reply r = Raise TypeError /\ flashes r = [] /\ outcome r = Raise TypeError /\
  outcome (verify default_settings POST sample_store ∅ 2000)
  = Ok (Some already_invalid_reference).
Proof. repeat split; reflexivity. Qed.

(** ** The verified flag over runs of the application *)

Lemma set_verified_idem (r : complaint) : verified r = true -> set_verified r = r.
Proof. destruct r; simpl; intros ->; reflexivity. Qed.

Lemma set_verified_same (r : complaint) : same_except_verified r (set_verified r).
Proof. repeat split. Qed.

(** One request keeps a verified record as it is, unless the request is a
    submission that generates the record's reference id. *)
Lemma step_keeps_verified cfg (s : gmap string complaint) q k r :
  s !! k = Some r -> verified r = true -> generated_id q <> Some k ->
  step cfg s q !! k = Some r.
Proof.
  intros Hk Hv Hq.
  assert (Hset : forall k' r', s !! k' = Some r' ->
                   <[k' := set_verified r']> s !! k = Some r).
  { intros k' r' Hk'. destruct (decide (k' = k)) as [->|Hne].
    - rewrite lookup_insert_eq. f_equal.
      assert (r' = r) as -> by congruence. now apply set_verified_idem.
    - now rewrite lookup_insert_ne. }
  destruct q as [m form uuid_hex rand now tu ta | m form now
                | reference_id supplied_token now | reference_id]; simpl.
  - destruct m; [assumption|]. rewrite index_store_after.
    rewrite lookup_insert_ne; [assumption|].
    intros Heq. apply Hq. simpl. now rewrite Heq.
  - destruct (verify_effect cfg m s form now) as [[-> _] | (k' & r' & _ & Hk' & _ & ->)];
      [assumption | now apply Hset].
  - destruct (verify_link_effect cfg s reference_id supplied_token now)
      as [[-> _] | (r' & Hk' & _ & ->)];
      [assumption | now apply Hset].
  - assumption.
Qed.

(** C4, as amended: once a record is verified, no sequence of submissions,
    verifications through either route and status lookups changes it, and in
    particular its [verified] stays true, as long as no submission in the
    sequence generates the reference id of that record. *)
Theorem verified_is_kept cfg (qs : list request) (s : gmap string complaint) k r :
  s !! k = Some r -> verified r = true ->
  Forall (fun q => generated_id q <> Some k) qs ->
  run_requests cfg s qs !! k = Some r.
Proof.
  revert s. induction qs as [|q qs IH]; intros s Hk Hv Hqs; simpl; [assumption|].
  inversion Hqs as [|q' qs' Hq Hqs']; subst.
  apply IH; [|assumption|assumption].
  now apply step_keeps_verified.
Qed.

Lemma verified_is_kept_witness :
  let s := run_requests default_settings ∅ [submit_first; follow_link] in
  let qs := [ submit_other;
              req_verify POST (verify_form "REF-AB12CD34" "999999") 4000;
              req_verify_link "REF-AB12CD34" "000000" 200000;
              req_status "REF-AB12CD34" ] in
  verified <$> s !! "REF-AB12CD34" = Some true /\
  verified <$> run_requests default_settings s qs !! "REF-AB12CD34" = Some true.
Proof.
  cbv zeta. split; [reflexivity|].
  rewrite (verified_is_kept default_settings _ _ "REF-AB12CD34"
             (set_verified (submitted_record sample_form 0 1000)));
    [reflexivity | reflexivity | reflexivity |].
  repeat constructor; discriminate.
Defined.

(** C4, as stated, fails: a submission does not look whether the reference
    id it generated is in use. When the eight hexadecimal digits drawn for a
    later submission are those of a verified record, the new, unverified
    record replaces it, and the status of that reference id goes from
    verified back to unverified. *)
Lemma resubmission_unverifies :
  let verified_store := run_requests default_settings ∅ [submit_first; follow_link] in
  let later := run_requests default_settings verified_store [submit_again] in
  generated_id submit_again = Some "REF-AB12CD34" /\
  verified <$> verified_store !! "REF-AB12CD34" = Some true /\
  verified <$> later !! "REF-AB12CD34" = Some false /\
  status verified_store "REF-AB12CD34"
  = json_payload [("reference_id", jstr "REF-AB12CD34"); ("verified", jbool true);
                  ("created_at", jiso_local 1000)] /\
  status later "REF-AB12CD34"
  = json_payload [("reference_id", jstr "REF-AB12CD34"); ("verified", jbool false);
                  ("created_at", jiso_local 3000)].
Proof. repeat split; reflexivity. Qed.

(** ** Expiry and failed verifications *)

Lemma verify_link_expired cfg (s : gmap string complaint) reference_id supplied_token now record :
  s !! reference_id = Some record ->
  now - created_at record > TOKEN_TTL_SECONDS cfg ->
  outcome (verify_link cfg s reference_id supplied_token now) = Ok (Some expired) /\
  store_after (verify_link cfg s reference_id supplied_token now) = s.
Proof.
  intros Hk Hold. unfold verify_link. rewrite Hk.
  replace (now - created_at record >? TOKEN_TTL_SECONDS cfg) with true
    by (symmetry; rewrite Z.gtb_ltb; apply Z.ltb_lt; lia).
  split; reflexivity.
Qed.

Lemma verify_link_in_time cfg (s : gmap string complaint) reference_id now record :
  s !! reference_id = Some record -> is_ascii (token record) = true ->
  now - created_at record <= TOKEN_TTL_SECONDS cfg ->
  outcome (verify_link cfg s reference_id (token record) now) = Ok (Some verified_now) /\
  store_after (verify_link cfg s reference_id (token record) now)
  = <[reference_id := set_verified record]> s.
Proof.
  intros Hk Hascii Hyoung. unfold verify_link. rewrite Hk.
  replace (now - created_at record >? TOKEN_TTL_SECONDS cfg) with false
    by (symmetry; rewrite Z.gtb_ltb; apply Z.ltb_ge; lia).
  rewrite (compare_digest_ascii _ _ Hascii Hascii), String.eqb_refl.
  split; reflexivity.
Qed.

(** C5: a verification that does not end in [verified_now] leaves the store
    as it was, through either route and also when it raises. For a record
    older than the TTL the outcome is [expired] and the store is unchanged
    whatever token is supplied, the correct one included. The comparison with
    the TTL is strict: while [now - created_at <= TTL], equality included,
    the correct token gives [verified_now] and sets [verified]. *)
Theorem failed_verification_keeps_store cfg (s : gmap string complaint)
    reference_id supplied_token now :
  store_ok s ->
  (forall m form,
     outcome (verify cfg m s form now) <> Ok (Some verified_now) ->
     store_after (verify cfg m s form now) = s) /\
  (outcome (verify_link cfg s reference_id supplied_token now) <> Ok (Some verified_now) ->
   store_after (verify_link cfg s reference_id supplied_token now) = s) /\
  (forall record,
     s !! reference_id = Some record ->
     now - created_at record > TOKEN_TTL_SECONDS cfg ->
     outcome (verify_link cfg s reference_id supplied_token now) = Ok (Some expired) /\
     store_after (verify_link cfg s reference_id supplied_token now) = s /\
     outcome (verify cfg POST s (verify_form reference_id supplied_token) now)
     = Ok (Some expired) /\
     store_after (verify cfg POST s (verify_form reference_id supplied_token) now) = s) /\
  (forall record,
     s !! reference_id = Some record ->
     now - created_at record <= TOKEN_TTL_SECONDS cfg ->
     outcome (verify_link cfg s reference_id (token record) now) = Ok (Some verified_now) /\
     store_after (verify_link cfg s reference_id (token record) now)
     = <[reference_id := set_verified record]> s /\
     outcome (verify cfg POST s (verify_form reference_id (token record)) now)
     = Ok (Some verified_now) /\
     store_after (verify cfg POST s (verify_form reference_id (token record)) now)
     = <[reference_id := set_verified record]> s).
Proof.
  intros Hok. split; [|split; [|split]].
  - intros m form Hout.
    destruct (verify_effect cfg m s form now) as [[Hs _] | (k & r & _ & _ & Hv & _)];
      [exact Hs | contradiction].
  - intros Hout.
    destruct (verify_link_effect cfg s reference_id supplied_token now)
      as [[Hs _] | (r & _ & Hv & _)]; [exact Hs | contradiction].
  - intros record Hk Hold.
    destruct (verify_form_cases cfg s reference_id supplied_token now
                (or_intror (proj1 Hok))) as [-> ->].
    destruct (verify_link_expired cfg s reference_id supplied_token now record Hk Hold).
    auto.
  - intros record Hk Hyoung.
    destruct (verify_form_cases cfg s reference_id (token record) now
                (or_intror (proj1 Hok))) as [-> ->].
    destruct (verify_link_in_time cfg s reference_id now record Hk
                (proj2 Hok _ _ Hk) Hyoung).
    auto.
Qed.

(** The scenario of the specification: a record created at time 1000 with a
    TTL of 86400 seconds. The correct token is refused as [expired] at
    1000+86401 and the store stays as it was; it is accepted at 1000+86399
    and at 1000+86400. *)
Lemma failed_verification_keeps_store_witness :
  store_ok sample_store /\
  TOKEN_TTL_SECONDS default_settings = 86400 /\
  created_at <$> sample_store !! "REF-AB12CD34" = Some 1000 /\
  outcome (verify_link default_settings sample_store "REF-AB12CD34" "000000" (1000 + 86401))
  = Ok (Some expired) /\
  store_after (verify_link default_settings sample_store "REF-AB12CD34" "000000"
                 (1000 + 86401)) = sample_store /\
  outcome (verify_link default_settings sample_store "REF-AB12CD34" "000000" (1000 + 86399))
  = Ok (Some verified_now) /\
  outcome (verify default_settings POST sample_store
             (verify_form "REF-AB12CD34" "000000") (1000 + 86400))
  = Ok (Some verified_now).
Proof.
  split; [exact sample_store_ok|]. split; [reflexivity|]. split; [reflexivity|].
  pose proof (failed_verification_keeps_store default_settings sample_store
                "REF-AB12CD34" "000000" (1000 + 86401) sample_store_ok)
    as (_ & _ & Hexpired & _).
  pose proof (failed_verification_keeps_store default_settings sample_store
                "REF-AB12CD34" "000000" (1000 + 86399) sample_store_ok)
    as (_ & _ & _ & Hbefore).
  pose proof (failed_verification_keeps_store default_settings sample_store
                "REF-AB12CD34" "000000" (1000 + 86400) sample_store_ok)
    as (_ & _ & _ & Hat).
  specialize (Hexpired _ eq_refl eq_refl).
  specialize (Hbefore _ eq_refl ltac:(discriminate)).
  specialize (Hat _ eq_refl ltac:(discriminate)).
  destruct Hexpired as (He1 & He2 & _), Hbefore as (Hb & _), Hat as (_ & _ & Ha & _).
  repeat split; assumption.
Defined.

(** ** Submission and the notifier *)

(** X2: whatever the notifier does, the record of a submission is in the store
    under the generated reference id when the handler ends: unverified, with
    the token and the time of creation, and visible to the status route. *)
Theorem index_files_record cfg (s : gmap string complaint) form uuid_hex rand now
    tr_user tr_admin :
  let r := index cfg POST s form uuid_hex rand now tr_user tr_admin in
  let reference_id := make_reference_id uuid_hex in
  store_after r !! reference_id = Some (submitted_record form rand now) /\
  verified (submitted_record form rand now) = false /\
  token (submitted_record form rand now) = format_06d rand /\
  created_at (submitted_record form rand now) = now /\
  status (store_after r) reference_id
  = json_payload [("reference_id", jstr reference_id); ("verified", jbool false);
                  ("created_at", jiso_local now)].
Proof.
  cbv zeta. rewrite index_store_after. unfold status.
  rewrite lookup_insert_eq. repeat split.
Qed.

(** X3: when both notifications return, with [True] or with [False], the
    submission is answered by a redirect to the start page and one flashed
    message that carries the reference id. *)
Theorem index_reports_reference_id cfg (s : gmap string complaint) form uuid_hex rand
    now tr_user tr_admin sent admin_notified :
  send_verification_email cfg tr_user (form !! "email") (make_reference_id uuid_hex)
    (format_06d rand) = Ok sent ->
  send_admin_notification cfg tr_admin (make_reference_id uuid_hex)
    (submitted_record form rand now) = Ok admin_notified ->
  let r := index cfg POST s form uuid_hex rand now tr_user tr_admin in
  reply r = Ok (redirect_to ep_index) /\
  exists f, flashes r = [f] /\ occurs_in (make_reference_id uuid_hex) (message f).
Proof.
  intros Hsent Hadmin. cbv zeta. unfold index.
  rewrite Hsent. fold (submitted_record form rand now). rewrite Hadmin.
  destruct sent; [|destruct (is_nonempty _ && debug cfg)];
    (split; [reflexivity|]); eexists; (split; [reflexivity|]);
    eexists _, _; reflexivity.
Qed.

Lemma index_reports_reference_id_witness :
  let r := index default_settings POST ∅ sample_form sample_uuid 0 1000 working working in
  reply r = Ok (redirect_to ep_index) /\
  exists f, flashes r = [f] /\ occurs_in "REF-AB12CD34" (message f).
Proof.
  exact (index_reports_reference_id default_settings ∅ sample_form sample_uuid 0 1000
           working working false false eq_refl eq_refl).
Defined.

(** C7 (the code departs from the claim): a failing notification can keep
    the submission from being answered. With no SMTP server configured, the
    console backend selected and an administrator to notify, the message to
    the submitter is printed and [send_admin_notification] raises
    [UnboundLocalError]; [index] does not catch it, so the request ends in
    that exception: no redirect, no flashed message, and the submitter never
    sees the reference id under which the record was, by then, stored. *)
Theorem index_unanswered_when_notifier_raises :
  let r := index console_settings POST ∅ sample_form sample_uuid 0 1000 working working in
  send_verification_email console_settings working (sample_form !! "email")
    "REF-AB12CD34" "000000" = Ok true /\
  send_admin_notification console_settings working "REF-AB12CD34"
    (submitted_record sample_form 0 1000) = Raise UnboundLocalError /\
  reply r = Raise UnboundLocalError /\
  flashes r = [] /\
  store_after r !! "REF-AB12CD34" = Some (submitted_record sample_form 0 1000).
Proof. repeat split; reflexivity. Qed.

(** C10 (the code departs from the claim): the notifier raises to its
    caller. [send_admin_notification] reads the local variables [subject] and
    [body] before they are assigned when the SMTP configuration is
    incomplete and a development backend is selected: [UnboundLocalError]
    with the console backend and with the file backend. Both senders convert
    [SMTP_PORT] with [int] outside any [try]: [ValueError] when it is not a
    number. [send_verification_email] joins the recipients outside the [try]:
    [TypeError] when the form carried no email address and SMTP is
    configured. *)
Theorem notifier_raises :
  send_admin_notification console_settings working "REF-AB12CD34"
    (submitted_record sample_form 0 1000) = Raise UnboundLocalError /\
  send_admin_notification file_settings working "REF-AB12CD34"
    (submitted_record sample_form 0 1000) = Raise UnboundLocalError /\
  send_verification_email bad_port_settings working (Some "asha@example.com")
    "REF-AB12CD34" "000000" = Raise ValueError /\
  send_verification_email
    (mk_settings (mk_environ (Some "smtp.example.com") (Some "587") (Some "portal")
                    (Some "secret") None None) 86400 "" [] false)
    working None "REF-AB12CD34" "000000" = Raise TypeError.
Proof. repeat split; reflexivity. Qed.

(** X4: where the notifier keeps its promise: with an ASCII-only
    [SMTP_PORT] that is unset or a number and no development backend
    selected, both senders return a boolean whatever the transport does,
    provided the submitter's address is present; a transport error and a
    missing configuration both give [False]. *)
Theorem notifier_returns_boolean cfg tr to_email reference_id token0 record smtp_port :
  is_ascii (default "0" (SMTP_PORT (env cfg))) = true ->
  py_int (default "0" (SMTP_PORT (env cfg))) = Some smtp_port ->
  DEV_EMAIL_BACKEND cfg <> "console" -> DEV_EMAIL_BACKEND cfg <> "file" ->
  send_verification_email cfg tr (Some to_email) reference_id token0
  = Ok (negb (is_nonempty (missing_smtp (env cfg) smtp_port)) && smtp_ok tr) /\
  send_admin_notification cfg tr reference_id record
  = Ok (is_nonempty (ADMIN_EMAILS cfg)
        && negb (is_nonempty (missing_smtp (env cfg) smtp_port)) && smtp_ok tr).
Proof.
  intros _ Hport Hconsole Hfile.
  unfold send_verification_email, send_admin_notification. rewrite Hport.
  destruct (String.eqb_spec (DEV_EMAIL_BACKEND cfg) "console"); [contradiction|].
  destruct (String.eqb_spec (DEV_EMAIL_BACKEND cfg) "file"); [contradiction|].
  destruct (is_nonempty (ADMIN_EMAILS cfg)),
    (is_nonempty (missing_smtp (env cfg) smtp_port)), (smtp_ok tr);
    split; reflexivity.
Qed.

(** With SMTP configured and an administrator to notify: [True] from both
    senders when the conversation succeeds, [False] from both when it fails;
    and [False] from both when nothing is configured. *)
Lemma notifier_returns_boolean_witness :
  (send_verification_email smtp_settings working (Some "asha@example.com")
     "REF-AB12CD34" "000000" = Ok true /\
   send_admin_notification smtp_settings working "REF-AB12CD34"
     (submitted_record sample_form 0 1000) = Ok true) /\
  (send_verification_email smtp_settings smtp_down (Some "asha@example.com")
     "REF-AB12CD34" "000000" = Ok false /\
   send_admin_notification smtp_settings smtp_down "REF-AB12CD34"
     (submitted_record sample_form 0 1000) = Ok false) /\
  (send_verification_email default_settings working (Some "asha@example.com")
     "REF-AB12CD34" "000000" = Ok false /\
   send_admin_notification default_settings working "REF-AB12CD34"
     (submitted_record sample_form 0 1000) = Ok false).
Proof.
  split; [|split].
  - apply (notifier_returns_boolean smtp_settings working "asha@example.com"
             "REF-AB12CD34" "000000" (submitted_record sample_form 0 1000) 587);
      [reflexivity | reflexivity | discriminate | discriminate].
  - apply (notifier_returns_boolean smtp_settings smtp_down "asha@example.com"
             "REF-AB12CD34" "000000" (submitted_record sample_form 0 1000) 587);
      [reflexivity | reflexivity | discriminate | discriminate].
  - apply (notifier_returns_boolean default_settings working "asha@example.com"
             "REF-AB12CD34" "000000" (submitted_record sample_form 0 1000) 0);
      [reflexivity | reflexivity | discriminate | discriminate].
Defined.

(** ** The status route *)

(** C8: the status route answers with exactly the three fields
    [reference_id], [verified] and [created_at] when a record is filed under
    the reference id, and with the 404 text otherwise. No field is named
    [token], and the answer is a function of the reference id and of the
    record's [verified] and [created_at] alone: two stores whose records
    under that id agree on these two fields get the same answer, whatever
    their tokens and the rest of the stores are. *)
Theorem status_payload (s : gmap string complaint) reference_id :
  status s reference_id
  = match s !! reference_id with
    | Some record =>
        json_payload [ ("reference_id", jstr reference_id);
                       ("verified", jbool (verified record));
                       ("created_at", jiso_local (created_at record)) ]
    | None => text_with_status "Reference not found" 404
    end /\
  (forall fields, status s reference_id = json_payload fields ->
     map fst fields = ["reference_id"; "verified"; "created_at"] /\
     ~ In "token" (map fst fields)) /\
  (forall s' : gmap string complaint,
     public_part <$> s' !! reference_id = public_part <$> s !! reference_id ->
     status s' reference_id = status s reference_id).
Proof.
  split; [reflexivity|]. split.
  - unfold status. intros fields H.
    destruct (s !! reference_id); [|discriminate].
    injection H as <-. simpl. split; [reflexivity|].
    intros [H|[H|[H|[]]]]; discriminate.
  - unfold status, public_part. intros s' H.
    destruct (s' !! reference_id) as [r'|], (s !! reference_id) as [r|];
      simpl in H; try discriminate; [|reflexivity].
    injection H as -> ->. reflexivity.
Qed.

Lemma status_payload_witness :
  let other : gmap string complaint :=
    <["REF-AB12CD34" := mk_complaint None None None None "271828" 1000 false]> ∅ in
  token <$> sample_store !! "REF-AB12CD34" = Some "000000" /\
  token <$> other !! "REF-AB12CD34" = Some "271828" /\
  status other "REF-AB12CD34" = status sample_store "REF-AB12CD34" /\
  status sample_store "REF-00000000" = text_with_status "Reference not found" 404.
Proof.
  cbv zeta. split; [reflexivity|]. split; [reflexivity|]. split.
  - apply (proj2 (proj2 (status_payload sample_store "REF-AB12CD34"))). reflexivity.
  - exact (proj1 (status_payload sample_store "REF-00000000")).
Defined.

(** ** The frame of a verification *)

(** C9: a verification through either route changes at most the field
    [verified] of the record filed under the given reference id. Every
    other key keeps its record, no key is added or removed, and the record
    under the given reference id keeps its name, email, issue, location,
    token and time of creation. *)
Theorem verification_frame cfg (s : gmap string complaint) now :
  (forall m form k,
     let s' := store_after (verify cfg m s form now) in
     (form !! "reference_id" <> Some k -> s' !! k = s !! k) /\
     option_Forall2 same_except_verified (s !! k) (s' !! k)) /\
  (forall reference_id supplied_token k,
     let s' := store_after (verify_link cfg s reference_id supplied_token now) in
     (reference_id <> k -> s' !! k = s !! k) /\
     option_Forall2 same_except_verified (s !! k) (s' !! k)).
Proof.
  assert (Hrefl : forall k, option_Forall2 same_except_verified (s !! k) (s !! k)).
  { intros k. destruct (s !! k); constructor. repeat split. }
  assert (Hset : forall k' r k, s !! k' = Some r ->
            option_Forall2 same_except_verified (s !! k)
              (<[k' := set_verified r]> s !! k)).
  { intros k' r k Hk'. destruct (decide (k' = k)) as [->|Hne].
    - rewrite lookup_insert_eq, Hk'. constructor. apply set_verified_same.
    - rewrite lookup_insert_ne by assumption. apply Hrefl. }
  split.
  - intros m form k s'. unfold s'.
    destruct (verify_effect cfg m s form now)
      as [[-> _] | (k' & r & Hform & Hk' & _ & ->)].
    + split; [reflexivity | apply Hrefl].
    + split; [|now apply Hset].
      intros Hne. apply lookup_insert_ne. congruence.
  - intros reference_id supplied_token k s'. unfold s'.
    destruct (verify_link_effect cfg s reference_id supplied_token now)
      as [[-> _] | (r & Hk' & _ & ->)].
    + split; [reflexivity | apply Hrefl].
    + split; [|now apply Hset].
      intros Hne. now apply lookup_insert_ne.
Qed.

Lemma verification_frame_witness :
  let two := run_requests default_settings ∅ [submit_first; submit_other] in
  let s' := store_after (verify_link default_settings two "REF-AB12CD34" "000000" 2000) in
  verified <$> s' !! "REF-AB12CD34" = Some true /\
  s' !! "REF-01234567" = two !! "REF-01234567" /\
  option_Forall2 same_except_verified (two !! "REF-AB12CD34") (s' !! "REF-AB12CD34").
Proof.
  cbv zeta. split; [reflexivity|].
  pose proof (proj2 (verification_frame default_settings
                       (run_requests default_settings ∅ [submit_first; submit_other])
                       2000)) as H.
  split.
  - apply (H "REF-AB12CD34" "000000" "REF-01234567"). discriminate.
  - apply (H "REF-AB12CD34" "000000" "REF-AB12CD34").
Defined.

(** ** The token comparison *)

(** X5: the supplied token reaches a run of either route only through the
    result of [secrets.compare_digest] on the token of the addressed record:
    two supplied tokens on which that one call agrees give the same run,
    with the same store, flashed message and reply. In particular two
    different wrong tokens are answered alike, however many of their
    leading characters agree with the stored token. *)
Theorem token_seen_only_by_compare_digest cfg (s : gmap string complaint)
    reference_id t1 t2 now :
  (forall record, s !! reference_id = Some record ->
     compare_digest (token record) (Some t1) = compare_digest (token record) (Some t2)) ->
  verify_link cfg s reference_id t1 now = verify_link cfg s reference_id t2 now /\
  verify cfg POST s (verify_form reference_id t1) now
  = verify cfg POST s (verify_form reference_id t2) now.
Proof.
  intros H. unfold verify, verify_link.
  rewrite !verify_form_reference_id, !verify_form_token.
  destruct (truthy (Some reference_id)); simpl;
    destruct (s !! reference_id) as [record|]; try (split; reflexivity);
    rewrite (H record eq_refl); split; reflexivity.
Qed.

(** The stored token is ["000000"]: the wrong tokens ["000001"], which
    shares five characters with it, and ["999999"], which shares none, get
    the same run. *)
Lemma token_seen_only_by_compare_digest_witness :
  token <$> sample_store !! "REF-AB12CD34" = Some "000000" /\
  verify_link default_settings sample_store "REF-AB12CD34" "000001" 2000
  = verify_link default_settings sample_store "REF-AB12CD34" "999999" 2000 /\
  verify default_settings POST sample_store (verify_form "REF-AB12CD34" "000001") 2000
  = verify default_settings POST sample_store (verify_form "REF-AB12CD34" "999999") 2000 /\
  outcome (verify_link default_settings sample_store "REF-AB12CD34" "000001" 2000)
  = Ok (Some token_mismatch).
Proof.
  split; [reflexivity|].
  destruct (token_seen_only_by_compare_digest default_settings sample_store
              "REF-AB12CD34" "000001" "999999" 2000) as [Hlink Hform].
  - intros record Hrecord.
    assert (Es : sample_store !! "REF-AB12CD34"
                 = Some (submitted_record sample_form 0 1000)) by reflexivity.
    rewrite Es in Hrecord. injection Hrecord as <-. reflexivity.
  - split; [exact Hlink|]. split; [exact Hform | reflexivity].
Defined.

(** ** The format of a token *)

Lemma zero_padded_step fuel width n acc :
  zero_padded (S fuel) (S width) n acc
  = zero_padded fuel width (n / 10)%N (digit_char (n mod 10)%N :: acc).
Proof. simpl. now rewrite andb_false_r. Qed.

Lemma format_06d_small (n : N) :
  (n < 10 ^ 6)%N ->
  format_06d n
  = string_of_list_ascii
      (map (fun q => digit_char (q mod 10)%N)
         [n / 10 / 10 / 10 / 10 / 10; n / 10 / 10 / 10 / 10; n / 10 / 10 / 10;
          n / 10 / 10; n / 10; n]%N).
Proof.
  intros Hn. unfold format_06d.
  replace (6 + N.to_nat (N.log2 n) + 1)%nat
    with (S (S (S (S (S (S (S (N.to_nat (N.log2 n)))))))))%nat by lia.
  rewrite !zero_padded_step.
  assert (n / 10 / 10 / 10 / 10 / 10 / 10 = 0)%N as ->.
  { rewrite !N.Div0.div_div. apply N.div_small. exact Hn. }
  reflexivity.
Qed.

Lemma digit_char_digit (q : N) : is_digit_char (digit_char (q mod 10)) = true.
Proof.
  assert (H : (q mod 10 < 10)%N) by (apply N.mod_lt; discriminate).
  destruct (q mod 10)%N as [|p]; [reflexivity|].
  do 4 (destruct p as [p|p|]; try reflexivity; try (exfalso; lia)).
Qed.

Lemma digit_char_inj (a b : N) :
  (a < 10)%N -> (b < 10)%N -> digit_char a = digit_char b -> a = b.
Proof.
  intros Ha Hb H. unfold digit_char in H.
  apply (f_equal N_of_ascii) in H.
  rewrite !N_ascii_embedding in H by lia. lia.
Qed.

Lemma format_06d_inj (n m : N) :
  (n < 10 ^ 6)%N -> (m < 10 ^ 6)%N -> format_06d n = format_06d m -> n = m.
Proof.
  intros Hn Hm H. rewrite !format_06d_small in H by assumption.
  apply (f_equal list_ascii_of_string) in H.
  rewrite !list_ascii_of_string_of_list_ascii in H. simpl in H.
  injection H as H5 H4 H3 H2 H1 H0.
  apply digit_char_inj in H0, H1, H2, H3, H4, H5;
    try (apply N.mod_lt; discriminate).
  assert (Hz : forall x, (x < 10 ^ 6 -> x / 10 / 10 / 10 / 10 / 10 / 10 = 0)%N).
  { intros x Hx. rewrite !N.Div0.div_div. now apply N.div_small. }
  pose proof (Hz n Hn) as Zn. pose proof (Hz m Hm) as Zm.
  rewrite (N.div_mod' n 10), (N.div_mod' m 10), H0. f_equal. f_equal.
  rewrite (N.div_mod' (n/10) 10), (N.div_mod' (m/10) 10), H1. f_equal. f_equal.
  rewrite (N.div_mod' (n/10/10) 10), (N.div_mod' (m/10/10) 10), H2. f_equal. f_equal.
  rewrite (N.div_mod' (n/10/10/10) 10), (N.div_mod' (m/10/10/10) 10), H3. f_equal. f_equal.
  rewrite (N.div_mod' (n/10/10/10/10) 10), (N.div_mod' (m/10/10/10/10) 10), H4. f_equal. f_equal.
  rewrite (N.div_mod' (n/10/10/10/10/10) 10), (N.div_mod' (m/10/10/10/10/10) 10), H5.
  now rewrite Zn, Zm.
Qed.

(** X7: the tokens the generator issues: for a number below [10^6], as
    [secrets.randbelow(10**6)] draws it, the token has exactly six
    characters, all of them decimal digits, and different numbers give
    different tokens. *)
Theorem token_format (n : N) :
  (n < 10 ^ 6)%N ->
  String.length (format_06d n) = 6%nat /\
  forallb is_digit_char (list_ascii_of_string (format_06d n)) = true /\
  (forall m, (m < 10 ^ 6)%N -> format_06d m = format_06d n -> m = n).
Proof.
  intros Hn. split; [|split].
  - rewrite format_06d_small by assumption. reflexivity.
  - rewrite format_06d_small by assumption.
    rewrite list_ascii_of_string_of_list_ascii. simpl.
    now rewrite !digit_char_digit.
  - intros m Hm H. now apply format_06d_inj.
Qed.

Lemma token_format_witness :
  format_06d 42 = "000042" /\ String.length (format_06d 42) = 6%nat.
Proof.
  split; [reflexivity|].
  exact (proj1 (token_format 42 eq_refl)).
Defined.

(** ** Reachable stores *)

(** X6: every store the application reaches from the empty one, by any sequence
    of requests, satisfies the invariant the verification theorems assume:
    no record under the empty reference id, every stored token ASCII-only. *)
Theorem reachable_stores_are_ok cfg (qs : list request) :
  store_ok (run_requests cfg ∅ qs) /\ reachable cfg (run_requests cfg ∅ qs).
Proof.
  assert (H : reachable cfg (run_requests cfg ∅ qs))
    by (apply run_requests_reachable; constructor).
  split; [now apply (reachable_store_ok cfg) | exact H].
Qed.

(** ** What a successful verification proves *)

Lemma compare_digest_true (a : string) (b : option string) :
  compare_digest a b = Ok true -> b = Some a.
Proof.
  unfold compare_digest. destruct b as [b|]; [|discriminate].
  destruct (is_ascii a && is_ascii b); [|discriminate].
  intros H. injection H as H. apply String.eqb_eq in H. now subst.
Qed.

Lemma not_gtb_le (a b : Z) : (a >? b) = false -> a <= b.
Proof. rewrite Z.gtb_ltb. apply Z.ltb_ge. Qed.

Lemma gtb_gt (a b : Z) : (a >? b) = true -> a > b.
Proof. rewrite Z.gtb_ltb. intros H. apply Z.ltb_lt in H. lia. Qed.

(** X8: no verification succeeds without the stored token. Through either
    route and for every store and input, the outcome [verified_now] is
    reached only when a record is filed under the given reference id, the
    supplied token is exactly the stored one and the record is not older than
    the TTL; the store then is the old one with that record marked verified.
    Nothing else a client sends makes a route change the store. *)
Theorem verification_sound cfg (s : gmap string complaint) now :
  (forall m form,
     outcome (verify cfg m s form now) = Ok (Some verified_now) ->
     exists reference_id record,
       m = POST /\ form !! "reference_id" = Some reference_id /\
       s !! reference_id = Some record /\
       form !! "token" = Some (token record) /\
       now - created_at record <= TOKEN_TTL_SECONDS cfg /\
       store_after (verify cfg m s form now)
       = <[reference_id := set_verified record]> s) /\
  (forall reference_id supplied_token,
     outcome (verify_link cfg s reference_id supplied_token now)
     = Ok (Some verified_now) ->
     exists record,
       s !! reference_id = Some record /\
       supplied_token = token record /\
       now - created_at record <= TOKEN_TTL_SECONDS cfg /\
       store_after (verify_link cfg s reference_id supplied_token now)
       = <[reference_id := set_verified record]> s) /\
  (forall m form,
     store_after (verify cfg m s form now) <> s ->
     outcome (verify cfg m s form now) = Ok (Some verified_now)) /\
  (forall reference_id supplied_token,
     store_after (verify_link cfg s reference_id supplied_token now) <> s ->
     outcome (verify_link cfg s reference_id supplied_token now)
     = Ok (Some verified_now)).
Proof.
  split; [|split; [|split]].
  - intros m form. unfold verify. destruct m; simpl; [discriminate|].
    handler_cases; try discriminate. intros _.
    eexists _, _. split; [reflexivity|]. split; [reflexivity|].
    split; [eassumption|]. split; [now apply compare_digest_true|].
    split; [now apply not_gtb_le | reflexivity].
  - intros reference_id supplied_token. unfold verify_link.
    handler_cases; try discriminate. intros _.
    eexists. split; [reflexivity|].
    apply compare_digest_true in Ecmp. injection Ecmp as ->.
    split; [reflexivity|]. split; [now apply not_gtb_le | reflexivity].
  - intros m form Hchanged.
    destruct (verify_effect cfg m s form now) as [[Hs _] | (k & r & _ & _ & Hv & _)];
      [contradiction | exact Hv].
  - intros reference_id supplied_token Hchanged.
    destruct (verify_link_effect cfg s reference_id supplied_token now)
      as [[Hs _] | (r & _ & Hv & _)]; [contradiction | exact Hv].
Qed.

Lemma verification_sound_witness :
  exists record,
    sample_store !! "REF-AB12CD34" = Some record /\
    "000000" = token record /\
    2000 - created_at record <= 86400.
Proof.
  destruct (proj1 (proj2 (verification_sound default_settings sample_store 2000))
              "REF-AB12CD34" "000000" eq_refl) as (record & H1 & H2 & H3 & _).
  exists record. auto.
Defined.

(** ** Where the verification raises *)

(** X9: the exact inputs on which a verification ends in an exception
    instead of an outcome, for a store that satisfies the invariant. It is
    always [TypeError], raised by the token comparison, and it happens
    exactly when a record is filed under the reference id, the record is not
    older than the TTL (an expired record is refused before the comparison)
    and the supplied token is not ASCII-only or, on the form route, the
    [token] field is absent. An unknown, empty or absent reference id never
    raises. *)
Theorem verification_raises_exactly cfg (s : gmap string complaint) now e :
  store_ok s ->
  (forall reference_id supplied_token,
     outcome (verify_link cfg s reference_id supplied_token now) = Raise e <->
     e = TypeError /\
     exists record, s !! reference_id = Some record /\
       now - created_at record <= TOKEN_TTL_SECONDS cfg /\
       is_ascii supplied_token = false) /\
  (forall form,
     outcome (verify cfg POST s form now) = Raise e <->
     e = TypeError /\
     exists reference_id record,
       form !! "reference_id" = Some reference_id /\
       s !! reference_id = Some record /\
       now - created_at record <= TOKEN_TTL_SECONDS cfg /\
       (form !! "token" = None \/
        exists supplied_token, form !! "token" = Some supplied_token /\
          is_ascii supplied_token = false)).
Proof.
  intros [Hempty Hascii].
  assert (Hcmp : forall record k (b : option string),
            s !! k = Some record ->
            (compare_digest (token record) b = Raise e <->
             e = TypeError /\
             (b = None \/ exists t, b = Some t /\ is_ascii t = false))).
  { intros record k b Hk. unfold compare_digest.
    destruct b as [t|].
    - rewrite (Hascii _ _ Hk). simpl. destruct (is_ascii t) eqn:Et; split.
      + discriminate.
      + intros [_ [H | (t' & H & H')]]; [discriminate|]. congruence.
      + intros H. injection H as <-. split; [reflexivity|]. right. eauto.
      + intros [-> _]. reflexivity.
    - split.
      + intros H. injection H as <-. split; [reflexivity|]. now left.
      + intros [-> _]. reflexivity. }
  split.
  - intros reference_id supplied_token. unfold verify_link.
    destruct (s !! reference_id) as [record|] eqn:Hk; simpl.
    + destruct (now - created_at record >? TOKEN_TTL_SECONDS cfg) eqn:Ettl; simpl.
      * split; [discriminate|]. intros (_ & r & Hr & Hle & _).
        apply gtb_gt in Ettl. assert (r = record) as -> by congruence. lia.
      * apply not_gtb_le in Ettl.
        destruct (compare_digest (token record) (Some supplied_token))
          as [[|]|e'] eqn:Ecmp; simpl.
        -- split; [discriminate|]. intros (-> & r & Hr & _ & Ht).
           rewrite compare_digest_not_ascii in Ecmp by assumption. discriminate.
        -- split; [discriminate|]. intros (-> & r & Hr & _ & Ht).
           rewrite compare_digest_not_ascii in Ecmp by assumption. discriminate.
        -- unfold outcome; simpl. split.
           ++ intros H. injection H as ->.
              apply (Hcmp _ _ _ Hk) in Ecmp as [-> [H | (t & H & Ht)]];
                [discriminate|]. injection H as <-.
              split; [reflexivity|]. eauto.
           ++ intros (-> & r & Hr & _ & Ht).
              rewrite compare_digest_not_ascii in Ecmp by assumption. congruence.
    + split; [discriminate|]. intros (_ & r & Hr & _). discriminate.
  - intros form. unfold verify.
    destruct (form !! "reference_id") as [reference_id|] eqn:Hform; simpl.
    2: { split; [discriminate|]. intros (_ & k & r & H & _). discriminate. }
    destruct (truthy (Some reference_id)) eqn:Etruthy; simpl.
    2: { split; [discriminate|]. intros (_ & k & r & H & Hk & _).
         injection H as <-.
         destruct (String.eqb_spec reference_id "") as [->|Hne]; [congruence|].
         apply truthy_Some in Hne. congruence. }
    destruct (s !! reference_id) as [record|] eqn:Hk; simpl.
    2: { split; [discriminate|]. intros (_ & k & r & H & Hk' & _).
         injection H as <-. congruence. }
    destruct (now - created_at record >? TOKEN_TTL_SECONDS cfg) eqn:Ettl; simpl.
    { split; [discriminate|]. intros (_ & k & r & H & Hr & Hle & _).
      injection H as <-. apply gtb_gt in Ettl.
      assert (r = record) as -> by congruence. lia. }
    apply not_gtb_le in Ettl.
    destruct (compare_digest (token record) (form !! "token")) as [[|]|e'] eqn:Ecmp;
      simpl.
    + split; [discriminate|]. intros (He & _ & _ & _ & _ & _ & Htok).
      assert (Hr : compare_digest (token record) (form !! "token") = Raise e)
        by (apply (Hcmp _ _ _ Hk); auto).
      congruence.
    + split; [discriminate|]. intros (He & _ & _ & _ & _ & _ & Htok).
      assert (Hr : compare_digest (token record) (form !! "token") = Raise e)
        by (apply (Hcmp _ _ _ Hk); auto).
      congruence.
    + unfold outcome; simpl. split.
      * intros H. injection H as ->.
        apply (Hcmp _ _ _ Hk) in Ecmp as [-> Htok].
        split; [reflexivity|]. eexists _, _. eauto.
      * intros (He & _ & _ & _ & _ & _ & Htok).
        assert (Hr : compare_digest (token record) (form !! "token") = Raise e)
          by (apply (Hcmp _ _ _ Hk); auto).
        congruence.
Qed.

Lemma verification_raises_exactly_witness :
  store_ok sample_store /\
  outcome (verify_link default_settings sample_store "REF-AB12CD34" "é" 2000)
  = Raise TypeError /\
  outcome (verify default_settings POST sample_store
             (<["reference_id" := "REF-AB12CD34"]> ∅) 2000) = Raise TypeError.
Proof.
  split; [exact sample_store_ok|].
  destruct (verification_raises_exactly default_settings sample_store 2000 TypeError
              sample_store_ok) as [Hlink Hform].
  split.
  - apply Hlink. split; [reflexivity|].
    exists (submitted_record sample_form 0 1000). repeat split; discriminate.
  - apply Hform. split; [reflexivity|].
    exists "REF-AB12CD34", (submitted_record sample_form 0 1000).
    split; [reflexivity|]. split; [reflexivity|]. split; [discriminate|].
    left. reflexivity.
Defined.

(** ** From submission to verification *)

Lemma verify_form_success_nonempty cfg (s : gmap string complaint)
    reference_id supplied_token now :
  outcome (verify cfg POST s (verify_form reference_id supplied_token) now)
  = Ok (Some verified_now) ->
  reference_id <> "".
Proof.
  unfold verify. rewrite verify_form_reference_id.
  destruct (truthy (Some reference_id)) eqn:E; simpl; [|discriminate].
  intros _. now apply truthy_Some.
Qed.

(** X10: the reference id and the token that a submission generates verify
    the record it stored. Whatever the earlier store, the form, the values
    drawn by the generators and the fate of the notifications, a
    verification with that pair no later than TTL seconds after the
    submission gives [verified_now] through either route and the status
    route then reports the record as verified; later than that it gives
    [expired] and the record stays unverified. *)
Theorem submit_then_verify cfg (s : gmap string complaint) form uuid_hex rand now
    tr_user tr_admin now' :
  let s1 := store_after (index cfg POST s form uuid_hex rand now tr_user tr_admin) in
  let reference_id := make_reference_id uuid_hex in
  let issued := format_06d rand in
  (now' - now <= TOKEN_TTL_SECONDS cfg ->
     outcome (verify_link cfg s1 reference_id issued now') = Ok (Some verified_now) /\
     outcome (verify cfg POST s1 (verify_form reference_id issued) now')
     = Ok (Some verified_now) /\
     status (store_after (verify_link cfg s1 reference_id issued now')) reference_id
     = json_payload [("reference_id", jstr reference_id); ("verified", jbool true);
                     ("created_at", jiso_local now)]) /\
  (now' - now > TOKEN_TTL_SECONDS cfg ->
     outcome (verify_link cfg s1 reference_id issued now') = Ok (Some expired) /\
     outcome (verify cfg POST s1 (verify_form reference_id issued) now')
     = Ok (Some expired) /\
     status (store_after (verify_link cfg s1 reference_id issued now')) reference_id
     = json_payload [("reference_id", jstr reference_id); ("verified", jbool false);
                     ("created_at", jiso_local now)]).
Proof.
  cbv zeta. rewrite index_store_after.
  set (reference_id := make_reference_id uuid_hex).
  set (record := submitted_record form rand now).
  set (s1 := <[reference_id := record]> s).
  assert (Hk : s1 !! reference_id = Some record) by apply lookup_insert_eq.
  assert (Hne : reference_id <> "" \/ s1 !! "" = None)
    by (left; apply make_reference_id_nonempty).
  destruct (verify_form_cases cfg s1 reference_id (format_06d rand) now' Hne)
    as [-> _].
  split; intros Hage.
  - destruct (verify_link_in_time cfg s1 reference_id now' record Hk
                (format_06d_ascii rand) Hage) as [Hout Hstore].
    change (token record) with (format_06d rand) in Hout, Hstore.
    rewrite Hout, Hstore. unfold status. rewrite lookup_insert_eq. auto.
  - destruct (verify_link_expired cfg s1 reference_id (format_06d rand) now' record
                Hk Hage) as [Hout Hstore].
    rewrite Hout, Hstore. unfold status. rewrite Hk. auto.
Qed.

Lemma submit_then_verify_witness :
  outcome (verify_link default_settings sample_store "REF-AB12CD34" "000000" 87400)
  = Ok (Some verified_now) /\
  outcome (verify_link default_settings sample_store "REF-AB12CD34" "000000" 87401)
  = Ok (Some expired).
Proof.
  split.
  - apply (proj1 (submit_then_verify default_settings ∅ sample_form sample_uuid 0 1000
                    working working 87400)). discriminate.
  - apply (proj2 (submit_then_verify default_settings ∅ sample_form sample_uuid 0 1000
                    working working 87401)). reflexivity.
Defined.

(** X11: verifying again. After a verification that gave [verified_now], the
    same reference id and token, sent again through the same route at any
    time, leave the store as the first verification left it; the outcome is
    [verified_now] again while the record is not older than the TTL, and
    [expired] afterwards, although the record is and stays verified. *)
Theorem verification_repeats cfg (s : gmap string complaint) reference_id
    supplied_token now now' :
  (outcome (verify_link cfg s reference_id supplied_token now) = Ok (Some verified_now) ->
   let s1 := store_after (verify_link cfg s reference_id supplied_token now) in
   exists record,
     s !! reference_id = Some record /\
     s1 !! reference_id = Some (set_verified record) /\
     store_after (verify_link cfg s1 reference_id supplied_token now') = s1 /\
     outcome (verify_link cfg s1 reference_id supplied_token now')
     = Ok (Some (if now' - created_at record >? TOKEN_TTL_SECONDS cfg
                 then expired else verified_now))) /\
  (outcome (verify cfg POST s (verify_form reference_id supplied_token) now)
   = Ok (Some verified_now) ->
   let s1 := store_after (verify cfg POST s (verify_form reference_id supplied_token) now) in
   exists record,
     s !! reference_id = Some record /\
     s1 !! reference_id = Some (set_verified record) /\
     store_after (verify cfg POST s1 (verify_form reference_id supplied_token) now') = s1 /\
     outcome (verify cfg POST s1 (verify_form reference_id supplied_token) now')
     = Ok (Some (if now' - created_at record >? TOKEN_TTL_SECONDS cfg
                 then expired else verified_now))).
Proof.
  assert (Hlink :
    outcome (verify_link cfg s reference_id supplied_token now) = Ok (Some verified_now) ->
    let s1 := store_after (verify_link cfg s reference_id supplied_token now) in
    exists record,
      s !! reference_id = Some record /\
      s1 !! reference_id = Some (set_verified record) /\
      store_after (verify_link cfg s1 reference_id supplied_token now') = s1 /\
      outcome (verify_link cfg s1 reference_id supplied_token now')
      = Ok (Some (if now' - created_at record >? TOKEN_TTL_SECONDS cfg
                  then expired else verified_now))).
  { intros Hfirst s1. subst s1.
    destruct (verify_link_effect cfg s reference_id supplied_token now)
      as [[_ Hno] | (record & Hk & _ & Hstore)]; [contradiction|].
    rewrite Hstore. exists record. split; [assumption|].
    split; [apply lookup_insert_eq|].
    (* the first run compared the tokens and found them equal *)
    assert (Hcmp : compare_digest (token record) (Some supplied_token) = Ok true).
    { revert Hfirst. unfold verify_link. rewrite Hk.
      destruct (now - created_at record >? TOKEN_TTL_SECONDS cfg); simpl;
        [discriminate|].
      destruct (compare_digest (token record) (Some supplied_token)) as [[|]|];
        simpl; [reflexivity | discriminate | discriminate]. }
    unfold verify_link. rewrite lookup_insert_eq. simpl.
    destruct (now' - created_at record >? TOKEN_TTL_SECONDS cfg);
      [split; reflexivity|].
    rewrite Hcmp. simpl. split; [|reflexivity].
    now rewrite insert_insert_eq. }
  split; [exact Hlink|].
  intros Hfirst s1. subst s1.
  pose proof (verify_form_success_nonempty _ _ _ _ _ Hfirst) as Hne.
  destruct (verify_form_cases cfg s reference_id supplied_token now (or_introl Hne))
    as [Hout Hstore].
  rewrite Hout in Hfirst. rewrite Hstore.
  destruct (verify_form_cases cfg
              (store_after (verify_link cfg s reference_id supplied_token now))
              reference_id supplied_token now' (or_introl Hne)) as [-> ->].
  exact (Hlink Hfirst).
Qed.

Lemma verification_repeats_witness :
  let s1 := store_after (verify_link default_settings sample_store "REF-AB12CD34"
                           "000000" 2000) in
  outcome (verify_link default_settings s1 "REF-AB12CD34" "000000" 3000)
  = Ok (Some verified_now) /\
  outcome (verify_link default_settings s1 "REF-AB12CD34" "000000" 900000)
  = Ok (Some expired) /\
  store_after (verify_link default_settings s1 "REF-AB12CD34" "000000" 900000) = s1.
Proof.
  cbv zeta.
  destruct (proj1 (verification_repeats default_settings sample_store "REF-AB12CD34"
                     "000000" 2000 3000) eq_refl) as (r & Hr & _ & _ & H1).
  destruct (proj1 (verification_repeats default_settings sample_store "REF-AB12CD34"
                     "000000" 2000 900000) eq_refl) as (r' & Hr' & _ & H2 & H3).
  assert (Es : sample_store !! "REF-AB12CD34"
               = Some (submitted_record sample_form 0 1000)) by reflexivity.
  rewrite Es in Hr, Hr'. injection Hr as <-. injection Hr' as <-.
  split; [exact H1|]. split; [exact H3 | exact H2].
Defined.

(** ** Records over runs of the application *)

Lemma same_except_verified_refl (r : complaint) : same_except_verified r r.
Proof. repeat split. Qed.

Lemma same_except_verified_trans (r1 r2 r3 : complaint) :
  same_except_verified r1 r2 -> same_except_verified r2 r3 ->
  same_except_verified r1 r3.
Proof.
  unfold same_except_verified.
  intros (?&?&?&?&?&?) (?&?&?&?&?&?). repeat split; congruence.
Qed.

(** One request leaves a record its fields, except that it may set
    [verified], unless the request is a submission that generates the
    record's reference id. *)
Lemma step_frame cfg (s : gmap string complaint) q k r :
  s !! k = Some r -> generated_id q <> Some k ->
  exists r', step cfg s q !! k = Some r' /\ same_except_verified r r' /\
             (verified r = true -> verified r' = true).
Proof.
  intros Hk Hq.
  assert (Hsame : exists r', s !! k = Some r' /\ same_except_verified r r' /\
                    (verified r = true -> verified r' = true))
    by (exists r; auto using same_except_verified_refl).
  assert (Hset : forall k' r0, s !! k' = Some r0 ->
            exists r', <[k' := set_verified r0]> s !! k = Some r' /\
              same_except_verified r r' /\ (verified r = true -> verified r' = true)).
  { intros k' r0 Hk'. destruct (decide (k' = k)) as [->|Hne].
    - rewrite lookup_insert_eq. assert (r0 = r) as -> by congruence.
      exists (set_verified r). auto using set_verified_same.
    - rewrite lookup_insert_ne by assumption. exact Hsame. }
  destruct q as [m form uuid_hex rand now tu ta | m form now
                | reference_id supplied_token now | reference_id]; simpl.
  - destruct m; [exact Hsame|]. rewrite index_store_after.
    rewrite lookup_insert_ne; [exact Hsame|].
    intros Heq. apply Hq. simpl. now rewrite Heq.
  - destruct (verify_effect cfg m s form now)
      as [[-> _] | (k' & r0 & _ & Hk' & _ & ->)]; [exact Hsame | now apply Hset].
  - destruct (verify_link_effect cfg s reference_id supplied_token now)
      as [[-> _] | (r0 & Hk' & _ & ->)]; [exact Hsame | now apply Hset].
  - exact Hsame.
Qed.

Lemma run_requests_frame cfg (qs : list request) (s : gmap string complaint) k r :
  s !! k = Some r ->
  Forall (fun q => generated_id q <> Some k) qs ->
  exists r', run_requests cfg s qs !! k = Some r' /\ same_except_verified r r' /\
             (verified r = true -> verified r' = true).
Proof.
  revert s r. induction qs as [|q qs IH]; intros s r Hk Hqs; simpl.
  - exists r. auto using same_except_verified_refl.
  - inversion Hqs as [|q' qs' Hq Hqs']; subst.
    destruct (step_frame cfg s q k r Hk Hq) as (r1 & Hk1 & Hsame1 & Hv1).
    destruct (IH _ _ Hk1 Hqs') as (r2 & Hk2 & Hsame2 & Hv2).
    exists r2. split; [assumption|]. split; [|auto].
    eapply same_except_verified_trans; eassumption.
Qed.

(** X12: the fields of a record never change. Over every sequence of
    submissions, verifications through either route and status lookups in
    which no submission generates the record's reference id, the record
    stays in the store with the name, email, issue, location, token and time
    of creation it was filed with; only [verified] may differ, and only by
    having become true. *)
Theorem records_keep_their_fields cfg (qs : list request)
    (s : gmap string complaint) k r :
  s !! k = Some r ->
  Forall (fun q => generated_id q <> Some k) qs ->
  exists r', run_requests cfg s qs !! k = Some r' /\
    name r' = name r /\ email r' = email r /\ issue r' = issue r /\
    location r' = location r /\ token r' = token r /\
    created_at r' = created_at r /\
    (verified r = true -> verified r' = true).
Proof.
  intros Hk Hqs.
  destruct (run_requests_frame cfg qs s k r Hk Hqs)
    as (r' & Hk' & (?&?&?&?&?&?) & Hv).
  exists r'. repeat split; auto.
Qed.

Lemma records_keep_their_fields_witness :
  exists r',
    run_requests default_settings sample_store
      [ req_verify POST (verify_form "REF-AB12CD34" "999999") 1500;
        submit_other; follow_link; req_status "REF-AB12CD34" ]
      !! "REF-AB12CD34" = Some r' /\
    token r' = "000000" /\ created_at r' = 1000.
Proof.
  destruct (records_keep_their_fields default_settings
              [ req_verify POST (verify_form "REF-AB12CD34" "999999") 1500;
                submit_other; follow_link; req_status "REF-AB12CD34" ]
              sample_store "REF-AB12CD34" (submitted_record sample_form 0 1000)
              eq_refl)
    as (r' & Hk & _ & _ & _ & _ & Htoken & Hcreated & _).
  - repeat constructor; discriminate.
  - exists r'. auto.
Defined.

(** One request adds the key of the reference id it generates and no
    other, and removes none. *)
Lemma step_keys cfg (s : gmap string complaint) q k :
  is_Some (step cfg s q !! k) <-> is_Some (s !! k) \/ generated_id q = Some k.
Proof.
  assert (Hset : forall k' r0, s !! k' = Some r0 ->
            (is_Some (<[k' := set_verified r0]> s !! k) <-> is_Some (s !! k))).
  { intros k' r0 Hk'. rewrite lookup_insert_is_Some. split.
    - intros [<- | [_ H]]; [eauto | exact H].
    - intros H. destruct (decide (k' = k)); auto. }
  destruct q as [m form uuid_hex rand now tu ta | m form now
                | reference_id supplied_token now | reference_id]; simpl.
  - destruct m; [split; [auto | intros [H|H]; [exact H | discriminate]]|].
    rewrite index_store_after, lookup_insert_is_Some. split.
    + intros [<- | [_ H]]; auto.
    + intros [H | H].
      * destruct (decide (make_reference_id uuid_hex = k)); auto.
      * injection H as <-. now left.
  - destruct (verify_effect cfg m s form now)
      as [[-> _] | (k' & r0 & _ & Hk' & _ & ->)].
    + split; [auto | intros [H|H]; [exact H | discriminate]].
    + rewrite (Hset _ _ Hk').
      split; [auto | intros [H|H]; [exact H | discriminate]].
  - destruct (verify_link_effect cfg s reference_id supplied_token now)
      as [[-> _] | (r0 & Hk' & _ & ->)].
    + split; [auto | intros [H|H]; [exact H | discriminate]].
    + rewrite (Hset _ _ Hk').
      split; [auto | intros [H|H]; [exact H | discriminate]].
  - split; [auto | intros [H|H]; [exact H | discriminate]].
Qed.

(** X13: the reference ids in the store. After any sequence of requests the
    store holds a record under a reference id exactly when it held one
    before or one of the submissions in the sequence generated that id: no
    request removes a record, and only a submission adds one. *)
Theorem store_keys cfg (qs : list request) (s : gmap string complaint) k :
  is_Some (run_requests cfg s qs !! k) <->
  is_Some (s !! k) \/ Exists (fun q => generated_id q = Some k) qs.
Proof.
  revert s. induction qs as [|q qs IH]; intros s; simpl.
  - split; [auto|]. intros [H|H]; [exact H | inversion H].
  - rewrite IH, step_keys, Exists_cons. tauto.
Qed.

(** X14: expiry is permanent. Once a record is older than the TTL, no
    sequence of requests makes it verifiable again: at any later time and
    with any token, the correct one included, a verification through either
    route answers [expired], as long as no submission generates the record's
    reference id anew. *)
Theorem expiry_is_permanent cfg (qs : list request) (s : gmap string complaint)
    k r now now' supplied_token :
  s !! k = Some r ->
  now - created_at r > TOKEN_TTL_SECONDS cfg -> now <= now' ->
  Forall (fun q => generated_id q <> Some k) qs ->
  let s' := run_requests cfg s qs in
  outcome (verify_link cfg s' k supplied_token now') = Ok (Some expired) /\
  (k <> "" ->
   outcome (verify cfg POST s' (verify_form k supplied_token) now') = Ok (Some expired)).
Proof.
  intros Hk Hold Hlater Hqs s'.
  destruct (run_requests_frame cfg qs s k r Hk Hqs)
    as (r' & Hk' & (_&_&_&_&_&Hcreated) & _).
  assert (Hold' : now' - created_at r' > TOKEN_TTL_SECONDS cfg)
    by (rewrite <- Hcreated; lia).
  destruct (verify_link_expired cfg s' k supplied_token now' r' Hk' Hold')
    as [Hout _].
  split; [exact Hout|]. intros Hne.
  destruct (verify_form_cases cfg s' k supplied_token now' (or_introl Hne)) as [-> _].
  exact Hout.
Qed.

Lemma expiry_is_permanent_witness :
  let s' := run_requests default_settings sample_store
              [req_verify_link "REF-AB12CD34" "999999" 90000; submit_other] in
  outcome (verify_link default_settings s' "REF-AB12CD34" "000000" 100000)
  = Ok (Some expired).
Proof.
  cbv zeta.
  refine (proj1 (expiry_is_permanent default_settings
                   [req_verify_link "REF-AB12CD34" "999999" 90000; submit_other]
                   sample_store "REF-AB12CD34" (submitted_record sample_form 0 1000)
                   90000 100000 "000000" eq_refl eq_refl _ _)).
  - discriminate.
  - repeat constructor; discriminate.
Defined.

(** ** The notifier and the answer to a submission *)

Lemma truthy_py_or (a b : option string) :
  truthy (py_or a b) = truthy a || truthy b.
Proof. unfold py_or. destruct (truthy a) eqn:E; simpl; [exact E | reflexivity]. Qed.

(** X15: which settings the senders call missing. The sender address falls
    back to the user name, so [SENDER_EMAIL] is reported missing only
    together with [SMTP_USERNAME], and the configuration is complete exactly
    when host, user name and password are non-empty and the port is a number
    other than 0. The list [_get_missing_smtp_config] builds for the debug
    message is the senders' own list when [SMTP_PORT] is unset or a number
    other than 0; for a port that reads as 0 the senders count [SMTP_PORT]
    as missing and the debug list does not. *)
Theorem missing_configuration (e : environ) (smtp_port : Z) :
  py_int (default "0" (SMTP_PORT e)) = Some smtp_port ->
  (In "SENDER_EMAIL" (missing_smtp e smtp_port) ->
   In "SMTP_USERNAME" (missing_smtp e smtp_port)) /\
  (missing_smtp e smtp_port = [] <->
   truthy (SMTP_HOST e) = true /\ smtp_port <> 0 /\
   truthy (SMTP_USERNAME e) = true /\ truthy (SMTP_PASSWORD e) = true) /\
  (SMTP_PORT e = None \/ smtp_port <> 0 ->
   _get_missing_smtp_config e = missing_smtp e smtp_port) /\
  (smtp_port = 0 -> truthy (SMTP_PORT e) = true ->
   In "SMTP_PORT" (missing_smtp e smtp_port) /\
   ~ In "SMTP_PORT" (_get_missing_smtp_config e)).
Proof.
  intros Hport.
  assert (Hraw : SMTP_PORT e = None \/ smtp_port <> 0 ->
                 truthy (SMTP_PORT e) = negb (Z.eqb smtp_port 0)).
  { intros Hcase. destruct (SMTP_PORT e) as [raw|] eqn:Eraw; simpl in Hport.
    - destruct Hcase as [H|H]; [discriminate|].
      destruct (Z.eqb_spec smtp_port 0); [contradiction|]. simpl.
      apply truthy_Some. intros ->. discriminate.
    - injection Hport as <-. reflexivity. }
  unfold missing_smtp, _get_missing_smtp_config, missing_names.
  rewrite truthy_py_or.
  split; [|split; [|split]].
  - destruct (truthy (SMTP_HOST e)), (Z.eqb smtp_port 0),
      (truthy (SMTP_USERNAME e)), (truthy (SMTP_PASSWORD e)),
      (truthy (SENDER_EMAIL e)); simpl; intuition discriminate.
  - destruct (Z.eqb_spec smtp_port 0);
      destruct (truthy (SMTP_HOST e)), (truthy (SMTP_USERNAME e)),
        (truthy (SMTP_PASSWORD e)), (truthy (SENDER_EMAIL e)); simpl;
      intuition (discriminate || congruence).
  - intros Hcase. now rewrite (Hraw Hcase).
  - intros -> Htruthy. rewrite Htruthy.
    destruct (truthy (SMTP_HOST e)), (truthy (SMTP_USERNAME e)),
      (truthy (SMTP_PASSWORD e)), (truthy (SENDER_EMAIL e)); simpl;
      intuition discriminate.
Qed.

Lemma missing_configuration_witness :
  let e := mk_environ (Some "smtp.example.com") (Some "0") (Some "portal")
             (Some "secret") None None in
  In "SMTP_PORT" (missing_smtp e 0) /\ ~ In "SMTP_PORT" (_get_missing_smtp_config e).
Proof.
  cbv zeta.
  apply (proj2 (proj2 (proj2 (missing_configuration
           (mk_environ (Some "smtp.example.com") (Some "0") (Some "portal")
              (Some "secret") None None) 0 eq_refl)))); reflexivity.
Defined.

(** X16: the notification of the administrators is not visible to the
    submitter. Whenever it returns, whether with [True] or with [False], the
    answer to the submission, the flashed message and the store are the same:
    they depend on the result of the verification email only, which decides
    between the success message and a warning. *)
Theorem admin_notification_unseen cfg (s : gmap string complaint) form uuid_hex rand
    now tr_user tr_admin tr_admin' admin_notified admin_notified' :
  send_admin_notification cfg tr_admin (make_reference_id uuid_hex)
    (submitted_record form rand now) = Ok admin_notified ->
  send_admin_notification cfg tr_admin' (make_reference_id uuid_hex)
    (submitted_record form rand now) = Ok admin_notified' ->
  index cfg POST s form uuid_hex rand now tr_user tr_admin
  = index cfg POST s form uuid_hex rand now tr_user tr_admin' /\
  forall sent,
    send_verification_email cfg tr_user (form !! "email")
      (make_reference_id uuid_hex) (format_06d rand) = Ok sent ->
    exists msg,
      flashes (index cfg POST s form uuid_hex rand now tr_user tr_admin)
      = [mk_flash msg (if sent then success else warning)].
Proof.
  intros Hadmin Hadmin'. unfold index.
  fold (submitted_record form rand now). rewrite Hadmin, Hadmin'.
  split; [reflexivity|]. intros sent Hsent. rewrite Hsent.
  destruct sent; [|destruct (is_nonempty _ && debug cfg)]; eexists; reflexivity.
Qed.

(** With SMTP configured and one administrator: the notification of the
    administrator returns [True] on a working transport and [False] on a
    failing one, and the submitter gets the same answer both times. *)
Lemma admin_notification_unseen_witness :
  send_admin_notification smtp_settings working (make_reference_id sample_uuid)
    (submitted_record sample_form 0 1000) = Ok true /\
  send_admin_notification smtp_settings smtp_down (make_reference_id sample_uuid)
    (submitted_record sample_form 0 1000) = Ok false /\
  index smtp_settings POST ∅ sample_form sample_uuid 0 1000 working working
  = index smtp_settings POST ∅ sample_form sample_uuid 0 1000 working smtp_down.
Proof.
  split; [reflexivity|]. split; [reflexivity|].
  exact (proj1 (admin_notification_unseen smtp_settings ∅ sample_form sample_uuid
                  0 1000 working working smtp_down true false eq_refl eq_refl)).
Defined.

(** X17: the file backend hides a failed delivery. With
    [DEV_EMAIL_BACKEND] set to [file], a writable output directory, an
    ASCII-only [SMTP_PORT] that is unset or a number, an address in the form
    and no administrators configured, [send_verification_email] returns
    [True] whatever the SMTP configuration is and whether or not the SMTP
    conversation succeeds, and the submission is answered with the success
    message that the confirmation email has been sent. *)
Theorem file_backend_reports_success cfg (s : gmap string complaint) form uuid_hex
    rand now tr_user tr_admin smtp_port to_email :
  DEV_EMAIL_BACKEND cfg = "file" -> ADMIN_EMAILS cfg = [] ->
  is_ascii (default "0" (SMTP_PORT (env cfg))) = true ->
  py_int (default "0" (SMTP_PORT (env cfg))) = Some smtp_port ->
  form !! "email" = Some to_email -> fs_ok tr_user = true ->
  send_verification_email cfg tr_user (Some to_email) (make_reference_id uuid_hex)
    (format_06d rand) = Ok true /\
  let r := index cfg POST s form uuid_hex rand now tr_user tr_admin in
  reply r = Ok (redirect_to ep_index) /\
  flashes r
  = [mk_flash ("Complaint submitted. A confirmation email (ref "
               +:+ make_reference_id uuid_hex +:+ ") has been sent to "
               +:+ to_email +:+ ".") success].
Proof.
  intros Hfile Hadmins _ Hport Hemail Hfs.
  assert (Hsent : send_verification_email cfg tr_user (Some to_email)
                    (make_reference_id uuid_hex) (format_06d rand) = Ok true).
  { unfold send_verification_email, write_dev_file.
    rewrite Hport, Hfile, Hfs. simpl.
    destruct (is_nonempty _); [reflexivity|]. now destruct (smtp_ok tr_user). }
  split; [exact Hsent|]. cbv zeta. unfold index.
  rewrite Hemail, Hsent. unfold send_admin_notification. rewrite Hadmins. simpl.
  split; reflexivity.
Qed.

(** SMTP is configured and the conversation fails; the mail is written to
    a file and the submitter is told it has been sent. *)
Lemma file_backend_reports_success_witness :
  let cfg := mk_settings smtp_environ 86400 "file" [] false in
  send_verification_email cfg smtp_down (Some "asha@example.com")
    (make_reference_id sample_uuid) (format_06d 0) = Ok true /\
  flashes (index cfg POST ∅ sample_form sample_uuid 0 1000 smtp_down working)
  = [mk_flash ("Complaint submitted. A confirmation email (ref REF-AB12CD34) "
               +:+ "has been sent to asha@example.com.") success].
Proof.
  cbv zeta.
  destruct (file_backend_reports_success (mk_settings smtp_environ 86400 "file" [] false)
              ∅ sample_form sample_uuid 0 1000 smtp_down working 587
              "asha@example.com" eq_refl eq_refl eq_refl eq_refl eq_refl eq_refl)
    as (Hsent & _ & Hflash).
  split; [exact Hsent | exact Hflash].
Defined.

(** ** Start-up: the administrators' addresses *)

Lemma lstrip_idem (l : list ascii) : lstrip (lstrip l) = lstrip l.
Proof.
  induction l as [|c l IH]; simpl; [reflexivity|].
  destruct (is_space c) eqn:E; [exact IH|]. simpl. now rewrite E.
Qed.

Lemma lstrip_app_nonspace (l t : list ascii) (c : ascii) :
  is_space c = false -> lstrip (l ++ c :: t)%list = (lstrip l ++ c :: t)%list.
Proof.
  intros Hc. induction l as [|d l IH]; simpl.
  - now rewrite Hc.
  - destruct (is_space d); [exact IH | reflexivity].
Qed.

Lemma lstrip_Forall (P : ascii -> Prop) (l : list ascii) :
  Forall P l -> Forall P (lstrip l).
Proof.
  induction 1 as [|c l Hc Hl IH]; simpl; [constructor|].
  destruct (is_space c); [exact IH | now constructor].
Qed.

Lemma strip_Forall (P : ascii -> Prop) (l : list ascii) :
  Forall P l -> Forall P (strip l).
Proof.
  intros H. unfold strip.
  apply Forall_rev, lstrip_Forall, Forall_rev, lstrip_Forall, H.
Qed.

(** Stripping twice is stripping once. *)
Lemma strip_idem (l : list ascii) : strip (strip l) = strip l.
Proof.
  unfold strip at 2 3.
  assert (Hfix : lstrip (lstrip l) = lstrip l) by apply lstrip_idem.
  destruct (lstrip l) as [|c t] eqn:El; [reflexivity|].
  assert (Hc : is_space c = false).
  { simpl in Hfix. destruct (is_space c); [|reflexivity].
    (* a space at the head would have been removed *)
    exfalso. assert (Hlen : (length (lstrip t) <= length t)%nat).
    { clear. induction t as [|d t IH]; simpl; [lia|].
      destruct (is_space d); simpl; lia. }
    rewrite Hfix in Hlen. simpl in Hlen. lia. }
  assert (E1 : rev (lstrip (rev (c :: t))) = c :: rev (lstrip (rev t))).
  { simpl. rewrite (lstrip_app_nonspace (rev t) [] c Hc). apply rev_unit. }
  rewrite E1. unfold strip. simpl. rewrite Hc. simpl.
  rewrite rev_involutive, (lstrip_app_nonspace _ [] c Hc), lstrip_idem.
  apply rev_unit.
Qed.

Lemma split_on_no_separator (sep : ascii) (l : list ascii) :
  Forall (Forall (fun c => c <> sep)) (split_on sep l).
Proof.
  induction l as [|c l IH]; simpl; [repeat constructor|].
  destruct (Ascii.eqb_spec c sep) as [->|Hne]; [repeat constructor; exact IH|].
  destruct (split_on sep l) as [|piece pieces]; [repeat constructor; assumption|].
  inversion IH; subst. repeat constructor; assumption.
Qed.

Lemma lstrip_nil (l : list ascii) :
  lstrip l = [] <-> Forall (fun c => is_space c = true) l.
Proof.
  induction l as [|c l IH]; simpl; [split; [constructor | reflexivity]|].
  destruct (is_space c) eqn:E.
  - rewrite IH. split; [now constructor | now inversion 1].
  - split; [discriminate|]. inversion 1; congruence.
Qed.

Lemma strip_nil (l : list ascii) :
  strip l = [] <-> Forall (fun c => is_space c = true) l.
Proof.
  unfold strip. split.
  - intros H. apply (f_equal (@rev ascii)) in H. rewrite rev_involutive in H.
    simpl in H. apply lstrip_nil, Forall_rev in H. rewrite rev_involutive in H.
    (* what is left after stripping on the left is blank, so it is empty *)
    apply lstrip_nil in H. rewrite lstrip_idem in H. now apply lstrip_nil.
  - intros H. apply lstrip_nil in H. rewrite H. reflexivity.
Qed.

Lemma split_on_Forall (P : ascii -> Prop) (sep : ascii) (l : list ascii) :
  Forall (Forall P) (split_on sep l) <-> Forall (fun c => c = sep \/ P c) l.
Proof.
  induction l as [|c l IH]; simpl.
  - split; repeat constructor.
  - destruct (Ascii.eqb_spec c sep) as [->|Hne].
    + split.
      * intros H. inversion H; subst. constructor; [now left | now apply IH].
      * intros H. inversion H; subst. constructor; [constructor | now apply IH].
    + destruct (split_on sep l) as [|piece pieces].
      * split.
        -- intros H. inversion H as [|? ? Hc _]; subst. inversion Hc; subst.
           constructor; [now right | apply IH; constructor].
        -- intros H. inversion H as [|? ? [Hc|Hc] _]; subst; [contradiction|].
           repeat constructor. exact Hc.
      * split.
        -- intros H. inversion H as [|? ? Hc Hrest]; subst. inversion Hc; subst.
           constructor; [now right | apply IH; now constructor].
        -- intros H. inversion H as [|? ? [Hc|Hc] Hl]; subst; [contradiction|].
           apply IH in Hl. inversion Hl; subst. repeat constructor; assumption.
Qed.

(** X18: the list of administrators read at start-up from an ASCII-only
    [ADMIN_EMAILS]. Every entry is non-empty, contains no comma and has no
    whitespace at either end. The list is empty exactly when the variable is
    unset or consists of whitespace and commas only, and then
    [send_admin_notification] returns [False] for every environment and
    transport, before it reads [SMTP_PORT]. *)
Theorem admin_emails_parsed (raw : option string) :
  is_ascii (default "" raw) = true ->
  Forall (fun e =>
            e <> "" /\ ~ In ","%char (list_ascii_of_string e) /\
            strip (list_ascii_of_string e) = list_ascii_of_string e)
    (parse_admin_emails raw) /\
  (parse_admin_emails raw = [] <->
   Forall (fun c => c = ","%char \/ is_space c = true)
     (list_ascii_of_string (default "" raw))) /\
  (forall cfg tr reference_id record,
     ADMIN_EMAILS cfg = parse_admin_emails raw -> parse_admin_emails raw = [] ->
     send_admin_notification cfg tr reference_id record = Ok false).
Proof.
  intros _. split; [|split].
  - unfold parse_admin_emails.
    pose proof (split_on_no_separator ","%char
                  (list_ascii_of_string (default "" raw))) as Hsplit.
    induction Hsplit as [|piece pieces Hpiece _ IH]; [constructor|].
    rewrite fmap_cons, filter_cons.
    destruct (decide (is_nonempty (strip piece))) as [Hne|Hempty]; [|exact IH].
    rewrite fmap_cons. constructor; [|exact IH].
    rewrite list_ascii_of_string_of_list_ascii. split; [|split].
    + destruct (strip piece); [contradiction | discriminate].
    + apply strip_Forall in Hpiece. rewrite Forall_forall in Hpiece.
      intros Hin. apply list_elem_of_In in Hin. exact (Hpiece _ Hin eq_refl).
    + apply strip_idem.
  - rewrite <- split_on_Forall. unfold parse_admin_emails.
    induction (split_on ","%char (list_ascii_of_string (default "" raw)))
      as [|piece pieces IH]; [split; [constructor | reflexivity]|].
    rewrite fmap_cons, filter_cons.
    destruct (decide (is_nonempty (strip piece))) as [Hne|Hempty].
    + rewrite fmap_cons. split; [discriminate|].
      intros H. inversion H as [|? ? Hblank _]; subst.
      apply strip_nil in Hblank. rewrite Hblank in Hne. contradiction.
    + rewrite IH. split.
      * intros H. constructor; [|exact H]. apply strip_nil.
        destruct (strip piece); [reflexivity|]. exfalso. apply Hempty. exact I.
      * now inversion 1.
  - intros cfg tr reference_id record Hcfg Hnone.
    unfold send_admin_notification. rewrite Hcfg, Hnone. reflexivity.
Qed.

Lemma admin_emails_parsed_witness :
  parse_admin_emails (Some " ops@example.com, ,mayor@example.com ,")
  = ["ops@example.com"; "mayor@example.com"] /\
  parse_admin_emails None = [] /\ parse_admin_emails (Some " , ,") = [] /\
  Forall (fun e =>
            e <> "" /\ ~ In ","%char (list_ascii_of_string e) /\
            strip (list_ascii_of_string e) = list_ascii_of_string e)
    (parse_admin_emails (Some " ops@example.com, ,mayor@example.com ,")).
Proof.
  split; [reflexivity|]. split; [reflexivity|]. split; [reflexivity|].
  exact (proj1 (admin_emails_parsed
                  (Some " ops@example.com, ,mayor@example.com ,") eq_refl)).
Defined.

(** ** The format of a reference id *)

Lemma upper_char_hex (c : ascii) :
  is_lower_hex c = true -> is_upper_hex (upper_char c) = true.
Proof.
  destruct c as [[] [] [] [] [] [] [] []]; intros H;
    first [discriminate H | reflexivity].
Qed.

(** On the digits of a uuid, [upper_char] can be undone. *)
Lemma upper_char_undone (c : ascii) :
  is_lower_hex c = true ->
  (let n := nat_of_ascii (upper_char c) in
   if ((65 <=? n) && (n <=? 70))%nat then ascii_of_nat (n + 32) else upper_char c) = c.
Proof.
  destruct c as [[] [] [] [] [] [] [] []]; intros H;
    first [discriminate H | reflexivity].
Qed.

Lemma upper_char_inj (a b : ascii) :
  is_lower_hex a = true -> is_lower_hex b = true ->
  upper_char a = upper_char b -> a = b.
Proof.
  intros Ha Hb H.
  rewrite <- (upper_char_undone a Ha), <- (upper_char_undone b Hb).
  cbv zeta. now rewrite H.
Qed.

Lemma upper_hex_not_slash (c : ascii) : is_upper_hex c = true -> c <> "/"%char.
Proof. intros H ->. discriminate H. Qed.

Lemma length_list_ascii_of_string (u : string) :
  length (list_ascii_of_string u) = String.length u.
Proof. induction u as [|c u IH]; simpl; [reflexivity | now rewrite IH]. Qed.

Lemma string_of_list_ascii_inj (l l' : list ascii) :
  string_of_list_ascii l = string_of_list_ascii l' -> l = l'.
Proof.
  intros H. apply (f_equal list_ascii_of_string) in H.
  now rewrite !list_ascii_of_string_of_list_ascii in H.
Qed.

Lemma map_upper_char_inj (l l' : list ascii) :
  forallb is_lower_hex l = true -> forallb is_lower_hex l' = true ->
  map upper_char l = map upper_char l' -> l = l'.
Proof.
  revert l'. induction l as [|a l IH]; intros [|b l'] Hl Hl' H;
    simpl in *; try discriminate; [reflexivity|].
  apply andb_true_iff in Hl as [Ha Hl], Hl' as [Hb Hl'].
  injection H as Hab H. f_equal; [now apply upper_char_inj | now apply IH].
Qed.

Lemma forallb_take (f : ascii -> bool) (n : nat) (l : list ascii) :
  forallb f l = true -> forallb f (take n l) = true.
Proof.
  revert n. induction l as [|c l IH]; intros [|n] H; simpl in *; try reflexivity.
  apply andb_true_iff in H as [Hc Hl]. now rewrite Hc, IH.
Qed.

Lemma make_reference_id_digits (u : string) :
  make_reference_id u
  = "REF-" +:+ string_of_list_ascii (map upper_char (take 8 (list_ascii_of_string u))).
Proof.
  unfold make_reference_id, upper, prefix.
  now rewrite list_ascii_of_string_of_list_ascii.
Qed.

(** X19: the reference ids [index] generates from a [uuid4] are ["REF-"]
    followed by exactly eight upper-case hexadecimal digits: twelve
    characters, none of them a slash, so the id is one segment of the path
    of the emailed link. Two submissions get the same reference id exactly
    when the first eight hexadecimal digits of their uuids are the same; the
    other 24 digits play no part. *)
Theorem reference_id_format (u : string) :
  is_uuid_hex u ->
  (exists digits,
     make_reference_id u = "REF-" +:+ string_of_list_ascii digits /\
     length digits = 8%nat /\ forallb is_upper_hex digits = true) /\
  String.length (make_reference_id u) = 12%nat /\
  ~ In "/"%char (list_ascii_of_string (make_reference_id u)) /\
  (forall u', is_uuid_hex u' ->
     (make_reference_id u' = make_reference_id u <-> prefix 8 u' = prefix 8 u)).
Proof.
  intros [Hhex Hlen].
  set (digits := map upper_char (take 8 (list_ascii_of_string u))).
  assert (Hdigits : length digits = 8%nat).
  { unfold digits. rewrite length_map, length_take, length_list_ascii_of_string. lia. }
  assert (Hupper : forallb is_upper_hex digits = true).
  { unfold digits. apply forallb_forall. intros c Hc.
    apply in_map_iff in Hc as (c0 & <- & Hc0). apply upper_char_hex.
    pose proof (forallb_take is_lower_hex 8 _ Hhex) as Htake.
    rewrite forallb_forall in Htake. now apply Htake. }
  rewrite make_reference_id_digits. fold digits.
  split; [|split; [|split]].
  - exists digits. auto.
  - destruct digits as [|d1 [|d2 [|d3 [|d4 [|d5 [|d6 [|d7 [|d8 [|]]]]]]]]];
      simpl in Hdigits; try discriminate. reflexivity.
  - change ("REF-" +:+ string_of_list_ascii digits)
      with (string_of_list_ascii ("R" :: "E" :: "F" :: "-" :: digits)%char).
    rewrite list_ascii_of_string_of_list_ascii.
    intros [H|[H|[H|[H|H]]]]; try discriminate.
    rewrite forallb_forall in Hupper.
    exact (upper_hex_not_slash _ (Hupper _ H) eq_refl).
  - intros u' [Hhex' _]. rewrite make_reference_id_digits. unfold digits, prefix.
    split.
    + intros H. injection H as H. apply string_of_list_ascii_inj in H.
      f_equal. apply map_upper_char_inj; [| |exact H]; now apply forallb_take.
    + intros H. apply string_of_list_ascii_inj in H. now rewrite H.
Qed.

Lemma reference_id_format_witness :
  is_uuid_hex sample_uuid /\
  String.length (make_reference_id sample_uuid) = 12%nat /\
  make_reference_id "ab12cd34000000000000000000000000" = make_reference_id sample_uuid.
Proof.
  assert (H : is_uuid_hex sample_uuid) by (split; [reflexivity | vm_compute; lia]).
  split; [exact H|].
  destruct (reference_id_format sample_uuid H) as (_ & Hlen & _ & Hsame).
  split; [exact Hlen|].
  apply Hsame; [split; [reflexivity | vm_compute; lia] | reflexivity].
Defined.

(** ** Where the notifier raises *)

(** X20: the exact conditions under which the senders raise instead of
    returning a boolean, and what that does to a submission, for an
    ASCII-only [SMTP_PORT]. [send_admin_notification] raises exactly when
    there is an administrator to notify and either [SMTP_PORT] is not a
    number or the SMTP configuration is incomplete while a development
    backend (console or file) is selected. [send_verification_email] raises
    exactly when [SMTP_PORT] is not a number, or the configuration is
    complete and the form carried no address, or the development file cannot
    be written in one of the two places that write it. A submission ends in
    an exception exactly when one of the two calls raises, the second being
    made only if the first returned. *)
Theorem notifier_raises_exactly cfg tr tr' (to_email : option string)
    reference_id issued record :
  is_ascii (default "0" (SMTP_PORT (env cfg))) = true ->
  let port := py_int (default "0" (SMTP_PORT (env cfg))) in
  let incomplete := fun p => is_nonempty (missing_smtp (env cfg) p) = true in
  ((exists e, send_admin_notification cfg tr' reference_id record = Raise e) <->
   ADMIN_EMAILS cfg <> [] /\
   (port = None \/
    exists p, port = Some p /\ incomplete p /\
      (DEV_EMAIL_BACKEND cfg = "console" \/ DEV_EMAIL_BACKEND cfg = "file"))) /\
  ((exists e, send_verification_email cfg tr to_email reference_id issued = Raise e) <->
   port = None \/
   exists p, port = Some p /\
     ((incomplete p /\ DEV_EMAIL_BACKEND cfg = "file" /\ fs_ok tr = false) \/
      (~ incomplete p /\ to_email = None) \/
      (~ incomplete p /\ to_email <> None /\ smtp_ok tr = false /\
       DEV_EMAIL_BACKEND cfg = "file" /\ fs_ok tr = false))) /\
  (forall (s : gmap string complaint) form uuid_hex rand now e,
     reply (index cfg POST s form uuid_hex rand now tr tr') = Raise e <->
     send_verification_email cfg tr (form !! "email") (make_reference_id uuid_hex)
       (format_06d rand) = Raise e \/
     (exists sent,
        send_verification_email cfg tr (form !! "email") (make_reference_id uuid_hex)
          (format_06d rand) = Ok sent /\
        send_admin_notification cfg tr' (make_reference_id uuid_hex)
          (submitted_record form rand now) = Raise e)).
Proof.
  intros _. cbv zeta. split; [|split].
  - unfold send_admin_notification.
    destruct (ADMIN_EMAILS cfg) as [|a admins]; simpl.
    { split; [intros [e H]; discriminate | intros [H _]; contradiction]. }
    destruct (py_int (default "0" (SMTP_PORT (env cfg)))) as [p|].
    2: { split; [intros _; split; [discriminate | now left] | eauto]. }
    destruct (is_nonempty (missing_smtp (env cfg) p)) eqn:Emissing.
    2: { split.
         - intros [e H]. destruct (smtp_ok tr'); discriminate.
         - intros [_ [H | (p' & H & Hinc & _)]]; [discriminate|].
           injection H as <-. congruence. }
    destruct (String.eqb_spec (DEV_EMAIL_BACKEND cfg) "console") as [Hc|Hc].
    { split; [|eauto]. intros _. split; [discriminate|]. right. eauto. }
    destruct (String.eqb_spec (DEV_EMAIL_BACKEND cfg) "file") as [Hf|Hf].
    { split.
      - intros _. split; [discriminate|]. right. eauto.
      - intros _. destruct (fs_ok tr'); eauto. }
    split; [intros [e H]; discriminate|].
    intros [_ [H | (p' & _ & _ & [H|H])]]; [discriminate | contradiction | contradiction].
  - unfold send_verification_email, write_dev_file.
    destruct (py_int (default "0" (SMTP_PORT (env cfg)))) as [p|].
    2: { split; [now left | eauto]. }
    destruct (is_nonempty (missing_smtp (env cfg) p)) eqn:Emissing.
    + destruct (String.eqb_spec (DEV_EMAIL_BACKEND cfg) "console") as [Hc|Hc].
      { split; [intros [e H]; discriminate|].
        intros [H | (p' & H & [(_ & Hf & _) | [(Hn & _) | (Hn & _)]])];
          [discriminate | rewrite Hf in Hc; discriminate | | ];
          injection H as <-; contradiction. }
      destruct (String.eqb_spec (DEV_EMAIL_BACKEND cfg) "file") as [Hf|Hf].
      * destruct (fs_ok tr) eqn:Efs.
        -- split; [intros [e H]; discriminate|].
           intros [H | (p' & H & [(_ & _ & Hfs) | [(Hn & _) | (Hn & _)]])];
             [discriminate | discriminate | | ];
             injection H as <-; contradiction.
        -- split; [|eauto]. intros _. right. exists p. split; [reflexivity|].
           left. auto.
      * split; [intros [e H]; discriminate|].
        intros [H | (p' & H & [(_ & Hf' & _) | [(Hn & _) | (Hn & _)]])];
          [discriminate | contradiction | | ];
          injection H as <-; contradiction.
    + assert (Hnot : is_nonempty (missing_smtp (env cfg) p) <> true) by congruence.
      destruct to_email as [addr|].
      2: { split; [|eauto]. intros _. right. exists p. split; [reflexivity|].
           right. left. rewrite Emissing. auto. }
      destruct (smtp_ok tr) eqn:Esmtp.
      { split; [intros [e H]; discriminate|].
        intros [H | (p' & H & [(Hinc & _) | [(_ & Hnone) | (_ & _ & Hs & _)]])];
          [discriminate | | discriminate | discriminate].
        injection H as <-. congruence. }
      destruct (String.eqb_spec (DEV_EMAIL_BACKEND cfg) "file") as [Hf|Hf].
      * destruct (fs_ok tr) eqn:Efs.
        -- split; [intros [e H]; discriminate|].
           intros [H | (p' & H & [(Hinc & _) | [(_ & Hnone) | (_ & _ & _ & _ & Hfs)]])];
             [discriminate | | discriminate | discriminate].
           injection H as <-. congruence.
        -- split; [|eauto]. intros _. right. exists p. split; [reflexivity|].
           right. right. rewrite Emissing. repeat split; auto; discriminate.
      * split; [intros [e H]; discriminate|].
        intros [H | (p' & H & [(Hinc & _) | [(_ & Hnone) | (_ & _ & _ & Hf' & _)]])];
          [discriminate | | discriminate | contradiction].
        injection H as <-. congruence.
  - intros s form uuid_hex rand now e. unfold index.
    fold (submitted_record form rand now).
    destruct (send_verification_email cfg tr (form !! "email")
                (make_reference_id uuid_hex) (format_06d rand)) as [sent|e1]; simpl.
    + destruct (send_admin_notification cfg tr' (make_reference_id uuid_hex)
                  (submitted_record form rand now)) as [admin_notified|e2]; simpl.
      * split.
        -- destruct sent; [|destruct (is_nonempty _ && debug cfg)]; discriminate.
        -- intros [H | (sent' & _ & H)]; discriminate.
      * split.
        -- intros H. injection H as ->. right. exists sent. split; reflexivity.
        -- intros [H | (sent' & _ & H)]; [discriminate|]. now injection H as ->.
    + split.
      * intros H. injection H as ->. now left.
      * intros [H | (sent' & H & _)]; [|discriminate]. now injection H as ->.
Qed.

Lemma notifier_raises_exactly_witness :
  (exists e, send_admin_notification console_settings working "REF-AB12CD34"
               (submitted_record sample_form 0 1000) = Raise e) /\
  (exists e, send_verification_email bad_port_settings working (Some "asha@example.com")
               "REF-AB12CD34" "000000" = Raise e) /\
  ~ (exists e, send_verification_email smtp_settings smtp_down (Some "asha@example.com")
                 "REF-AB12CD34" "000000" = Raise e).
Proof.
  split; [|split].
  - apply (proj1 (notifier_raises_exactly console_settings working working None
                    "REF-AB12CD34" "000000" (submitted_record sample_form 0 1000)
                    eq_refl)).
    split; [discriminate|]. right. exists 0. split; [reflexivity|].
    split; [reflexivity | now left].
  - apply (proj1 (proj2 (notifier_raises_exactly bad_port_settings working working
                           (Some "asha@example.com") "REF-AB12CD34" "000000"
                           (submitted_record sample_form 0 1000) eq_refl))).
    left. reflexivity.
  - intros Hraise.
    apply (proj1 (proj2 (notifier_raises_exactly smtp_settings smtp_down working
                           (Some "asha@example.com") "REF-AB12CD34" "000000"
                           (submitted_record sample_form 0 1000) eq_refl)))
      in Hraise.
    destruct Hraise as [H | (p & _ & [(_ & H & _) | [(_ & H) | (_ & _ & _ & H & _)]])];
      discriminate.
Defined.
